(** * Payment confirmation: [handleSuccessfulPayment]

    A shallow embedding of the routine that [src/temp_patch.py] writes into
    [backend/src/services/stripe.service.ts], and the properties the
    specification states about it.

    The routine is an [async] TypeScript function.  It is modelled as a
    computation in a state-and-exception monad over
    - the persistence layer (orders and payments),
    - the console,
    - the trace of calls made to the outside collaborators, and
    - the promises those calls left in flight when the routine returned.
    Numbers are IEEE-754 binary64 values, as in JavaScript. *)

From Stdlib Require Import Floats ZArith Bool Ascii String.
From stdpp Require Import base option list gmap strings.

Set Warnings "-inexact-float".

Local Open Scope string_scope.
Local Open Scope list_scope.

(** ** JavaScript values *)

Module JS.

(** A string is truthy unless it is empty; [null] and [undefined] are
    modelled by [None]. *)
Definition truthy_string (s : string) : bool := negb (String.eqb s "").

Definition truthy (o : option string) : bool :=
  match o with
  | Some s => truthy_string s
  | None => false
  end.

(** [o || d] on strings. *)
Definition or_else (o : option string) (d : string) : string :=
  match o with
  | Some s => if truthy_string s then s else d
  | None => d
  end.

(** A number is falsy when it is [0], [-0] or [NaN]. *)
Definition falsy_number (x : float) : bool :=
  (PrimFloat.eqb x 0 || PrimFloat.is_nan x)%bool.

(** [o || d] on numbers. *)
Definition number_or (o : option float) (d : float) : float :=
  match o with
  | Some x => if falsy_number x then d else x
  | None => d
  end.

(** [String.prototype.toLowerCase] on the ASCII letters.  No character
    outside ASCII lower-cases to one of [u], [s], [d], so this is enough
    for the comparison with ['usd']. *)
Definition lower_ascii (c : ascii) : ascii :=
  let n := Ascii.nat_of_ascii c in
  if (65 <=? n)%nat && (n <=? 90)%nat then Ascii.ascii_of_nat (n + 32) else c.

Fixpoint toLowerCase (s : string) : string :=
  match s with
  | EmptyString => EmptyString
  | String c rest => String (lower_ascii c) (toLowerCase rest)
  end.

(** A promise, by the way it settles. *)
Inductive Promise : Type :=
| Fulfilled
| Rejected (reason : string).

(** A plain call whose result is discarded: it raises, or it returns;
    what it returns may be a promise nobody holds on to. *)
Inductive Invocation : Type :=
| Throws (reason : string)
| Returns (discarded : option Promise).

End JS.

(** ** Data model *)

(** The provider's checkout session, with the fields the routine reads. *)
Record Session : Type := {
  payment_status : string;
  metadata : option (gmap string string);
  client_reference_id : option string;
  amount_total : option float;          (* minor units; [number | null] *)
  currency : option string;
  payment_intent : string;              (* read through [as string] *)
  payment_method_types : option (list string);
}.

(** The order status enumeration; the routine tests for ['PAID'] only. *)
Inductive OrderStatus : Type :=
| PENDING
| PAID
| OtherStatus (name : string).

Definition is_PAID (s : OrderStatus) : bool :=
  match s with
  | PAID => true
  | _ => false
  end.

Record User : Type := {
  firstName : option string;
  email : string;
}.

Record Address : Type := {
  country : option string;
}.

Record OrderItem : Type := {
  item_id : string;
}.

(** An order with the relations the routine includes ([user], [items],
    [address]).  [totalAmount] is the stored decimal as [Number(...)] reads
    it. *)
Record Order : Type := {
  order_id : string;                    (* [id] *)
  userId : string;
  status : OrderStatus;
  totalAmount : float;
  paidAt : option Z;
  promoCodeId : option string;
  orderNumber : string;
  designTier : string;
  user : User;
  items : list OrderItem;
  address : option Address;
}.

Inductive PaymentStatus : Type :=
| COMPLETED.

(** The payment row the nested [create] writes; [pay_order] is the relation
    to its order. *)
Record Payment : Type := {
  pay_order : string;
  stripePaymentId : string;
  amount : float;
  pay_currency : string;                (* [currency] *)
  pay_status : PaymentStatus;           (* [status] *)
  paymentMethod : string;
}.

(** ** Persistence layer *)

Record Db : Type := {
  orders : list Order;
  payments : list Payment;
}.

Definition has_id (oid : string) (o : Order) : bool := String.eqb (order_id o) oid.

(** [prisma.order.findUnique({ where: { id } })]. *)
Definition findUnique (db : Db) (oid : string) : option Order :=
  List.find (has_id oid) (orders db).

(** The fields [data] sets on the order row. *)
Definition mark_paid (now : Z) (o : Order) : Order :=
  {| order_id := order_id o;
     userId := userId o;
     status := PAID;
     paidAt := Some now;
     promoCodeId := promoCodeId o;
     orderNumber := orderNumber o;
     designTier := designTier o;
     user := user o;
     items := items o;
     address := address o;
     totalAmount := totalAmount o |}.

Fixpoint replace_row (oid : string) (f : Order -> Order) (rows : list Order) : list Order :=
  match rows with
  | [] => []
  | o :: rest => if has_id oid o then f o :: rest else o :: replace_row oid f rest
  end.

(** [prisma.order.update({ where: { id }, data: { status, paidAt, payment:
    { create } } })]: one atomic write of the order row and of the new
    payment row; it returns the updated order, and has nothing to update
    when no row has that id. *)
Definition update (db : Db) (oid : string) (now : Z) (p : Payment) : option (Db * Order) :=
  match findUnique db oid with
  | Some o =>
      Some ({| orders := replace_row oid (mark_paid now) (orders db);
               payments := payments db ++ [p] |},
            mark_paid now o)
  | None => None
  end.

(** ** Errors, collaborators and the world outside *)

Inductive IdentityField : Type :=
| ClientReference    (* 'Stripe session client_reference_id does not match order' *)
| MetadataUser.      (* 'Stripe session user does not match order owner' *)

Inductive Collaborator : Type :=
| StripeRetrieve
| PrismaUpdate
| IncrementPromoUsage
| SendAnalyticsEvent.

(** What the routine's promise can reject with.  The first six are the
    errors the routine raises itself; [Failure] is an exception of a
    collaborator, passed on as it is. *)
Inductive Error : Type :=
| PaymentIncomplete                        (* 'Payment not completed' *)
| OrderIdNotFound                          (* 'Order ID not found in session metadata' *)
| OrderNotFound                            (* 'Order not found' *)
| IdentityMismatch (field : IdentityField)
| UnsupportedCurrency (found : string)     (* `Unexpected currency: ${currency}` *)
| AmountMismatch (expected got : float)    (* `Payment amount mismatch. Expected ..., got ...` *)
| Failure (who : Collaborator) (reason : string).

(** The six error kinds of the specification. *)
Definition own_error (e : Error) : bool :=
  match e with
  | Failure _ _ => false
  | _ => true
  end.

Record OrderConfirmation : Type := {
  oc_customerName : string;
  oc_customerEmail : string;
  oc_orderNumber : string;
  oc_orderTotal : float;
  oc_tier : string;
  oc_itemCount : nat;
  oc_orderUrl : string;
}.

Record PromptGuide : Type := {
  pg_customerName : string;
  pg_customerEmail : string;
  pg_orderNumber : string;
  pg_orderUrl : string;
}.

Record AnalyticsEvent : Type := {
  event : string;
  ev_order_id : string;
  ev_order_number : string;
  ev_amount : float;
  ev_tier : string;
  ev_item_count : nat;
  ev_country : string;
}.

(** Calls made to the collaborators that have effects outside. *)
Inductive Call : Type :=
| IncrementPromoUsageCall (promo : string)
| SendOrderConfirmationCall (mail : OrderConfirmation)
| SendPromptGuideCall (mail : PromptGuide)
| SendAnalyticsEventCall (ev : AnalyticsEvent).

(** The collaborators, by how their calls turn out.  [retrieve] and
    [incrementPromoUsage] are awaited; the two senders return the promise
    on which the routine calls [.catch]; [sendAnalyticsEvent] is called as
    a statement.  [FRONTEND_URL] is [process.env.FRONTEND_URL] and [clock]
    is [new Date()]. *)
Record World : Type := {
  retrieve : string -> string + Session;
  incrementPromoUsage : string -> JS.Promise;
  sendOrderConfirmation : OrderConfirmation -> JS.Promise;
  sendPromptGuide : PromptGuide -> JS.Promise;
  sendAnalyticsEvent : AnalyticsEvent -> JS.Invocation;
  FRONTEND_URL : option string;
  clock : Z;
}.

(** ** State and the monad of the routine *)

Inductive ConsoleLine : Type :=
| ConsoleLog (text : string)
| ConsoleError (text : string) (error : string).

(** A promise the routine did not wait for, with the message of the
    [.catch] handler attached to it, if any. *)
Record InFlight : Type := {
  promise : JS.Promise;
  on_rejected : option string;
}.

Record State : Type := {
  db : Db;
  console : list ConsoleLine;
  calls : list Call;
  in_flight : list InFlight;
}.

Inductive Completion (A : Type) : Type :=
| Normal (a : A)
| Thrown (e : Error).
Arguments Normal {A} a.
Arguments Thrown {A} e.

Definition M (A : Type) : Type := State -> Completion A * State.

Definition ret {A} (a : A) : M A := fun st => (Normal a, st).

Definition throw {A} (e : Error) : M A := fun st => (Thrown e, st).

Definition bind {A B} (m : M A) (k : A -> M B) : M B :=
  fun st =>
    match m st with
    | (Normal a, st') => k a st'
    | (Thrown e, st') => (Thrown e, st')
    end.

Notation "'let*' x ':=' m 'in' k" := (bind m (fun x => k))
  (at level 10, x name, m at level 100, k at level 200).
Notation "m ';;' k" := (bind m (fun _ => k))
  (at level 100, k at level 200, right associativity).

Definition console_log (text : string) : M unit :=
  fun st => (Normal tt,
             {| db := db st; console := console st ++ [ConsoleLog text];
                calls := calls st; in_flight := in_flight st |}).

Definition record_call (c : Call) : M unit :=
  fun st => (Normal tt,
             {| db := db st; console := console st;
                calls := calls st ++ [c]; in_flight := in_flight st |}).

Definition leave_in_flight (p : JS.Promise) (handler : option string) : M unit :=
  fun st => (Normal tt,
             {| db := db st; console := console st; calls := calls st;
                in_flight := in_flight st ++ [{| promise := p; on_rejected := handler |}] |}).

(** [await p]: the continuation runs when [p] is fulfilled; a rejection is
    thrown at the [await]. *)
Definition await (who : Collaborator) (p : JS.Promise) : M unit :=
  match p with
  | JS.Fulfilled => ret tt
  | JS.Rejected reason => throw (Failure who reason)
  end.

(** [await stripe.checkout.sessions.retrieve(sessionId)]. *)
Definition await_retrieve (w : World) (sessionId : string) : M Session :=
  match retrieve w sessionId with
  | inr session => ret session
  | inl reason => throw (Failure StripeRetrieve reason)
  end.

(** [await prisma.order.findUnique(...)]. *)
Definition await_findUnique (oid : string) : M (option Order) :=
  fun st => (Normal (findUnique (db st) oid), st).

(** [await prisma.order.update(...)]. *)
Definition await_update (w : World) (oid : string) (p : Payment) : M Order :=
  fun st =>
    match update (db st) oid (clock w) p with
    | Some (db', updated) =>
        (Normal updated,
         {| db := db'; console := console st; calls := calls st; in_flight := in_flight st |})
    | None => (Thrown (Failure PrismaUpdate "Record to update not found."), st)
    end.

(** [f(payload).catch((error) => console.error(message, error))]: the call
    is made, the handler is attached, and the routine goes on. *)
Definition dispatch_caught (c : Call) (p : JS.Promise) (message : string) : M unit :=
  record_call c ;; leave_in_flight p (Some message).

(** [f(payload);] as a statement. *)
Definition call_discarding (who : Collaborator) (c : Call) (r : JS.Invocation) : M unit :=
  record_call c ;;
  match r with
  | JS.Throws reason => throw (Failure who reason)
  | JS.Returns None => ret tt
  | JS.Returns (Some p) => leave_in_flight p None
  end.

(** What the event loop does with the promises left in flight, once they
    settle: a rejection runs the attached handler, which writes to
    [console.error]; a rejection without handler is unhandled. *)
Definition settle_one (f : InFlight) : list ConsoleLine :=
  match promise f, on_rejected f with
  | JS.Rejected reason, Some message => [ConsoleError message reason]
  | _, _ => []
  end.

(** Everything the handlers of the promises in flight write. *)
Definition handler_output (st : State) : list ConsoleLine :=
  List.concat (List.map settle_one (in_flight st)).

(** The console once every promise in flight has settled. *)
Definition settled_console (st : State) : list ConsoleLine :=
  console st ++ handler_output st.

Definition unhandled_one (f : InFlight) : list string :=
  match promise f, on_rejected f with
  | JS.Rejected reason, None => [reason]
  | _, _ => []
  end.

Definition unhandled_rejections (st : State) : list string :=
  List.concat (List.map unhandled_one (in_flight st)).

(** ** The routine *)

Local Open Scope float_scope.

(** [session.client_reference_id && session.client_reference_id !== order.id],
    and the same shape for the user. *)
Definition present_and_differs (o : option string) (expected : string) : bool :=
  match o with
  | Some s => JS.truthy_string s && negb (String.eqb s expected)
  | None => false
  end.

(** [(session.amount_total || 0) / 100]. *)
Definition sessionTotal (session : Session) : float :=
  JS.number_or (amount_total session) 0 / 100.

(** [(session.currency || '').toLowerCase()]. *)
Definition sessionCurrency (session : Session) : string :=
  JS.toLowerCase (JS.or_else (currency session) "").

(** [Math.abs(sessionTotal - orderTotal) > 0.01]. *)
Definition exceeds_tolerance (sessionTotal orderTotal : float) : bool :=
  0.01 <? abs (sessionTotal - orderTotal).

Arguments sessionTotal : simpl never.
Arguments sessionCurrency : simpl never.
Arguments exceeds_tolerance : simpl never.

(** The row of the nested [payment: { create: ... }]. *)
Definition new_payment (orderId : string) (session : Session) : Payment :=
  {| pay_order := orderId;
     stripePaymentId := payment_intent session;
     amount := sessionTotal session;
     pay_currency := JS.or_else (currency session) "usd";
     pay_status := COMPLETED;
     paymentMethod := JS.or_else (payment_method_types session ≫= head) "card" |}.

Definition order_url (frontendUrl : string) (o : Order) : string :=
  frontendUrl ++ "/design?orderId=" ++ order_id o.

(** The payloads of lines 80-111.  [orderTotal] is sent as
    [totalAmount.toString()]; the model keeps the number. *)
Definition confirmation_mail (frontendUrl : string) (o : Order) : OrderConfirmation :=
  {| oc_customerName := JS.or_else (firstName (user o)) (email (user o));
     oc_customerEmail := email (user o);
     oc_orderNumber := orderNumber o;
     oc_orderTotal := totalAmount o;
     oc_tier := designTier o;
     oc_itemCount := length (items o);
     oc_orderUrl := order_url frontendUrl o |}.

Definition guide_mail (frontendUrl : string) (o : Order) : PromptGuide :=
  {| pg_customerName := JS.or_else (firstName (user o)) (email (user o));
     pg_customerEmail := email (user o);
     pg_orderNumber := orderNumber o;
     pg_orderUrl := order_url frontendUrl o |}.

Definition paid_event (o : Order) : AnalyticsEvent :=
  {| event := "order.paid";
     ev_order_id := order_id o;
     ev_order_number := orderNumber o;
     ev_amount := totalAmount o;
     ev_tier := designTier o;
     ev_item_count := length (items o);
     ev_country := JS.or_else (address o ≫= country) "US" |}.

(** Lines 75-111: what follows the commit. *)
Definition after_commit (w : World) (updatedOrder : Order) : M unit :=
  (if JS.truthy (promoCodeId updatedOrder)
   then
     let promo := default "" (promoCodeId updatedOrder) in
     record_call (IncrementPromoUsageCall promo) ;;
     await IncrementPromoUsage (incrementPromoUsage w promo)
   else ret tt) ;;
  let frontendUrl := JS.or_else (FRONTEND_URL w) "http://localhost:5173" in
  dispatch_caught
    (SendOrderConfirmationCall (confirmation_mail frontendUrl updatedOrder))
    (sendOrderConfirmation w (confirmation_mail frontendUrl updatedOrder))
    "Failed to send order confirmation email:" ;;
  dispatch_caught
    (SendPromptGuideCall (guide_mail frontendUrl updatedOrder))
    (sendPromptGuide w (guide_mail frontendUrl updatedOrder))
    "Failed to send prompt guide email:" ;;
  call_discarding SendAnalyticsEvent
    (SendAnalyticsEventCall (paid_event updatedOrder))
    (sendAnalyticsEvent w (paid_event updatedOrder)).

(** Lines 34-111: the order is not yet paid. *)
Definition reconcile_and_commit (w : World) (session : Session) (orderId : string)
    (order : Order) : M unit :=
  if present_and_differs (client_reference_id session) (order_id order)
  then throw (IdentityMismatch ClientReference)
  else
  if present_and_differs (metadata session ≫= lookup "userId") (userId order)
  then throw (IdentityMismatch MetadataUser)
  else
  let orderTotal := totalAmount order in
  let currency := sessionCurrency session in
  if JS.truthy_string currency && negb (String.eqb currency "usd")
  then throw (UnsupportedCurrency currency)
  else
  if exceeds_tolerance (sessionTotal session) orderTotal
  then throw (AmountMismatch orderTotal (sessionTotal session))
  else
  let* updatedOrder := await_update w orderId (new_payment orderId session) in
  console_log ("? Order " ++ orderId ++ " marked as PAID") ;;
  after_commit w updatedOrder.

Definition handleSuccessfulPayment (w : World) (sessionId : string) : M unit :=
  let* session := await_retrieve w sessionId in
  if negb (String.eqb (payment_status session) "paid")
  then throw PaymentIncomplete
  else
  let orderId := metadata session ≫= lookup "orderId" in
  if negb (JS.truthy orderId)
  then throw OrderIdNotFound
  else
  let orderId := default "" orderId in
  let* order := await_findUnique orderId in
  match order with
  | None => throw OrderNotFound
  | Some order =>
      if is_PAID (status order)
      then
        console_log ("Order " ++ orderId ++ " already marked as PAID; skipping duplicate webhook.")
      else reconcile_and_commit w session orderId order
  end.

(** The result the caller sees, and the state the routine leaves. *)
Definition result (w : World) (sessionId : string) (st : State) : Completion unit :=
  fst (handleSuccessfulPayment w sessionId st).

Definition state_after (w : World) (sessionId : string) (st : State) : State :=
  snd (handleSuccessfulPayment w sessionId st).

(** ** Vocabulary of the statements *)

(** The routine gets as far as the order: the provider returns [session],
    the session is paid, its metadata names [orderId], and the store holds
    [order] under that id (lines 9-27 raise nothing). *)
Definition resolves (w : World) (sessionId : string) (st : State)
    (session : Session) (orderId : string) (order : Order) : Prop :=
  retrieve w sessionId = inr session /\
  payment_status session = "paid" /\
  metadata session ≫= lookup "orderId" = Some orderId /\
  orderId <> "" /\
  findUnique (db st) orderId = Some order.

(** A field that is [null], [undefined] or the empty string. *)
Definition absent (o : option string) : Prop := o = None \/ o = Some "".

(** A field that is present and is not the [expected] value. *)
Definition carries_other (o : option string) (expected : string) : Prop :=
  exists s, o = Some s /\ s <> "" /\ s <> expected.

(** Neither identity check of lines 34-39 fires. *)
Definition identity_checks_pass (session : Session) (order : Order) : Prop :=
  present_and_differs (client_reference_id session) (order_id order) = false /\
  present_and_differs (metadata session ≫= lookup "userId") (userId order) = false.

(** The currency check of lines 43-46 does not fire. *)
Definition currency_accepted (session : Session) : Prop :=
  sessionCurrency session = "" \/ sessionCurrency session = "usd".

(** The first check of lines 34-49 that fails, if any. *)
Definition verdict (session : Session) (order : Order) : option Error :=
  if present_and_differs (client_reference_id session) (order_id order)
  then Some (IdentityMismatch ClientReference)
  else if present_and_differs (metadata session ≫= lookup "userId") (userId order)
  then Some (IdentityMismatch MetadataUser)
  else if JS.truthy_string (sessionCurrency session)
          && negb (String.eqb (sessionCurrency session) "usd")
  then Some (UnsupportedCurrency (sessionCurrency session))
  else if exceeds_tolerance (sessionTotal session) (totalAmount order)
  then Some (AmountMismatch (totalAmount order) (sessionTotal session))
  else None.

(** The state right after lines 51-73: the update is written and logged. *)
Definition committed (w : World) (session : Session) (orderId : string) (st : State) : State :=
  {| db := {| orders := replace_row orderId (mark_paid (clock w)) (orders (db st));
              payments := payments (db st) ++ [new_payment orderId session] |};
     console := console st ++ [ConsoleLog ("? Order " ++ orderId ++ " marked as PAID")];
     calls := calls st;
     in_flight := in_flight st |}.

(** The awaited promo step of lines 75-77 does not reject. *)
Definition promo_step_completes (w : World) (order : Order) : Prop :=
  JS.truthy (promoCodeId order) = true ->
  incrementPromoUsage w (default "" (promoCodeId order)) = JS.Fulfilled.

(** What a [.catch] handler with [message] writes for promise [p]. *)
Definition caught (p : JS.Promise) (message : string) : list ConsoleLine :=
  match p with
  | JS.Rejected reason => [ConsoleError message reason]
  | JS.Fulfilled => []
  end.

Definition frontendUrl (w : World) : string :=
  JS.or_else (FRONTEND_URL w) "http://localhost:5173".

(** ** Sample data *)

Module Sample.

Definition ada : User := {| firstName := Some "Ada"; email := "ada@example.com" |}.

Definition order (s : OrderStatus) (total : float) (promo : option string) : Order :=
  {| order_id := "ord_1"; userId := "usr_1"; status := s; totalAmount := total;
     paidAt := None; promoCodeId := promo; orderNumber := "GPT-0001";
     designTier := "PREMIUM"; user := ada; items := [ {| item_id := "item_1" |} ];
     address := None |}.

Definition session (pstatus : string) (cref : option string) (total : option float)
    (cur : option string) : Session :=
  {| payment_status := pstatus;
     metadata := Some {[ "orderId" := "ord_1"; "userId" := "usr_1" ]};
     client_reference_id := cref;
     amount_total := total;
     currency := cur;
     payment_intent := "pi_1";
     payment_method_types := Some ["card"] |}.

Definition world (s : Session) (promo mail guide : JS.Promise) (analytics : JS.Invocation)
    : World :=
  {| retrieve := fun _ => inr s;
     incrementPromoUsage := fun _ => promo;
     sendOrderConfirmation := fun _ => mail;
     sendPromptGuide := fun _ => guide;
     sendAnalyticsEvent := fun _ => analytics;
     FRONTEND_URL := None;
     clock := 1767225600000 |}.

Definition quiet (s : Session) : World :=
  world s JS.Fulfilled JS.Fulfilled JS.Fulfilled (JS.Returns None).

Definition store (o : Order) : State :=
  {| db := {| orders := [o]; payments := [] |};
     console := []; calls := []; in_flight := [] |}.

(** A paid session for 49.99 in usd, bound to order [ord_1]. *)
Definition good : Session := session "paid" (Some "ord_1") (Some 4999) (Some "usd").

Definition pending : Order := order PENDING 49.99 None.

(** The same session in euros and with the client reference of another
    order. *)
Definition misbound_eur : Session := session "paid" (Some "ord_2") (Some 4999) (Some "eur").

(** A paid session in euros that carries no amount. *)
Definition eur_without_amount : Session := session "paid" (Some "ord_1") None (Some "eur").

(** The pending order with a promo code, and a world in which the promo
    increment rejects. *)
Definition promo_order : Order := order PENDING 49.99 (Some "SAVE10").

Definition promo_down : World :=
  world good (JS.Rejected "promo store unavailable") JS.Fulfilled JS.Fulfilled
    (JS.Returns None).

(** Worlds in which both mails are rejected, in which the analytics call
    raises, and in which it returns a promise that rejects. *)
Definition mail_down : World :=
  world good JS.Fulfilled (JS.Rejected "smtp unavailable") (JS.Rejected "smtp unavailable")
    (JS.Returns None).

Definition analytics_down : World :=
  world good JS.Fulfilled JS.Fulfilled JS.Fulfilled (JS.Throws "analytics unavailable").

Definition analytics_rejecting : World :=
  world good JS.Fulfilled JS.Fulfilled JS.Fulfilled
    (JS.Returns (Some (JS.Rejected "analytics unavailable"))).

(** Sessions whose metadata is missing, or names an order the store does
    not hold. *)
Definition without_metadata : Session :=
  {| payment_status := "paid"; metadata := None; client_reference_id := None;
     amount_total := Some 4999; currency := Some "usd"; payment_intent := "pi_1";
     payment_method_types := None |}.

Definition for_unknown_order : Session :=
  {| payment_status := "paid"; metadata := Some {[ "orderId" := "ord_9" ]};
     client_reference_id := None; amount_total := Some 4999; currency := Some "usd";
     payment_intent := "pi_1"; payment_method_types := None |}.

(** An order whose stored total is not a number. *)
Definition nan_order : Order := order PENDING nan None.

(** A store with a paid order, its payment, and the pending order. *)
Definition settled : Order :=
  {| order_id := "ord_0"; userId := "usr_1"; status := PAID; totalAmount := 10;
     paidAt := Some 1767000000000%Z; promoCodeId := None; orderNumber := "GPT-0000";
     designTier := "BASIC"; user := ada; items := []; address := None |}.

Definition settled_payment : Payment :=
  {| pay_order := "ord_0"; stripePaymentId := "pi_0"; amount := 10;
     pay_currency := "usd"; pay_status := COMPLETED; paymentMethod := "card" |}.

Definition ledger : State :=
  {| db := {| orders := [settled; pending]; payments := [settled_payment] |};
     console := []; calls := []; in_flight := [] |}.

End Sample.

(** ** Invariants of the store *)

(** Every payment belongs to an order that is paid. *)
Definition payment_backed (d : Db) : Prop :=
  forall p, In p (payments d) ->
            exists o, findUnique d (pay_order p) = Some o /\ status o = PAID.

(** No order has two payments. *)
Definition one_payment_per_order (d : Db) : Prop :=
  NoDup (List.map pay_order (payments d)).

(** The call of lines 75-77, when the order has a promo code. *)
Definition promo_calls (o : Order) : list Call :=
  if JS.truthy (promoCodeId o)
  then [IncrementPromoUsageCall (default "" (promoCodeId o))]
  else [].

(** The three dispatches of lines 80-111, in their order. *)
Definition fan_out_calls (w : World) (o : Order) : list Call :=
  [SendOrderConfirmationCall (confirmation_mail (frontendUrl w) o);
   SendPromptGuideCall (guide_mail (frontendUrl w) o);
   SendAnalyticsEventCall (paid_event o)].

(** ** The patch script

    [src/temp_patch.py] itself: it reads the service file, finds the
    routine by the text that opens it and the doc comment that follows it,
    and writes the file back with the routine replaced.  A Python [str] is
    modelled by [string], one element per character; [s.find] is
    [String.index] ([None] for [-1]) and slices are [String.substring]. *)

Module Patch.

(** [s.find(sub, start)], for [0 <= start]. *)
Definition find (sub : string) (start : nat) (s : string) : option nat :=
  String.index start sub s.

(** [s[:i]] and [s[i:]], for [0 <= i]. *)
Definition slice_to (i : nat) (s : string) : string := String.substring 0 i s.

Definition slice_from (i : nat) (s : string) : string :=
  String.substring i (String.length s - i) s.

Definition path : string := "backend/src/services/stripe.service.ts".

Definition start_marker : string := "export async function handleSuccessfulPayment".

Definition end_marker : string := "/**
 * Manually confirm a checkout session".

Definition separator : string := "

".

Definition new_fn : string := "export async function handleSuccessfulPayment(sessionId: string): Promise<void> {
  const session = await stripe.checkout.sessions.retrieve(sessionId);

  if (session.payment_status !== 'paid') {
    throw new Error('Payment not completed');
  }

  const orderId = session.metadata?.orderId;
  if (!orderId) {
    throw new Error('Order ID not found in session metadata');
  }

  const order = await prisma.order.findUnique({
    where: { id: orderId },
    include: { user: true, items: true, address: true, promoCode: true },
  });

  if (!order) {
    throw new Error('Order not found');
  }

  if (order.status === 'PAID') {
    console.log(`Order ${orderId} already marked as PAID; skipping duplicate webhook.`);
    return;
  }

  if (session.client_reference_id && session.client_reference_id !== order.id) {
    throw new Error('Stripe session client_reference_id does not match order');
  }
  if (session.metadata?.userId && session.metadata.userId !== order.userId) {
    throw new Error('Stripe session user does not match order owner');
  }

  const sessionTotal = (session.amount_total || 0) / 100;
  const orderTotal = Number(order.totalAmount);
  const currency = (session.currency || '').toLowerCase();
  if (currency && currency !== 'usd') {
    throw new Error(`Unexpected currency: ${currency}`);
  }
  if (Math.abs(sessionTotal - orderTotal) > 0.01) {
    throw new Error(`Payment amount mismatch. Expected ${orderTotal}, got ${sessionTotal}`);
  }

  const updatedOrder = await prisma.order.update({
    where: { id: orderId },
    data: {
      status: 'PAID',
      paidAt: new Date(),
      payment: {
        create: {
          stripePaymentId: session.payment_intent as string,
          amount: sessionTotal,
          currency: session.currency || 'usd',
          status: 'COMPLETED',
          paymentMethod: session.payment_method_types?.[0] || 'card',
        },
      },
    },
    include: {
      user: true,
      items: true,
      address: true,
    },
  });

  console.log(`? Order ${orderId} marked as PAID`);

  if (updatedOrder.promoCodeId) {
    await incrementPromoUsage(updatedOrder.promoCodeId);
  }

  const frontendUrl = process.env.FRONTEND_URL || 'http://localhost:5173';
  sendOrderConfirmation({
    customerName: updatedOrder.user.firstName || updatedOrder.user.email,
    customerEmail: updatedOrder.user.email,
    orderNumber: updatedOrder.orderNumber,
    orderTotal: updatedOrder.totalAmount.toString(),
    tier: updatedOrder.designTier,
    itemCount: updatedOrder.items.length,
    orderUrl: `${frontendUrl}/design?orderId=${updatedOrder.id}`,
  }).catch((error) => {
    console.error('Failed to send order confirmation email:', error);
  });

  sendPromptGuide({
    customerName: updatedOrder.user.firstName || updatedOrder.user.email,
    customerEmail: updatedOrder.user.email,
    orderNumber: updatedOrder.orderNumber,
    orderUrl: `${frontendUrl}/design?orderId=${updatedOrder.id}`,
  }).catch((error) => {
    console.error('Failed to send prompt guide email:', error);
  });

  sendAnalyticsEvent({
    event: 'order.paid',
    properties: {
      order_id: updatedOrder.id,
      order_number: updatedOrder.orderNumber,
      amount: updatedOrder.totalAmount,
      tier: updatedOrder.designTier,
      item_count: updatedOrder.items.length,
      country: updatedOrder.address?.country || 'US',
    },
  });
}
".

Inductive Raised : Type :=
| FileNotFoundError
| SystemExit (message : string).

(** Lines 4-7 and the argument of line 114: the new text, or [None] when
    the script exits.  When the first [find] gives [-1] the script exits
    whatever the second gives. *)
Definition patched (text : string) : option string :=
  match find start_marker 0 text with
  | None => None
  | Some start =>
      match find end_marker start text with
      | None => None
      | Some stop =>
          Some (slice_to start text +:+ new_fn +:+ separator +:+ slice_from stop text)
      end
  end.

(** The script on a file system: what it raises, if anything, and the
    files it leaves.  The map gives, for each path, the text that
    [read_text] returns for it, that is, the file after decoding and after
    the translation of line ends, and [write_text] stores a text in that
    form; failures of the two calls other than a missing file are not
    modelled. *)
Definition run (fs : gmap string string) : option Raised * gmap string string :=
  match fs !! path with
  | None => (Some FileNotFoundError, fs)
  | Some text =>
      match patched text with
      | None => (Some (SystemExit "could not locate function boundaries"), fs)
      | Some text' => (None, <[path := text']> fs)
      end
  end.

(** [m] occurs in [s]. *)
Definition occurs (m s : string) : Prop := exists u v, s = u +:+ m +:+ v.

(** [w] and [m] differ at a position both have. *)
Fixpoint mismatch (m w : string) : bool :=
  match m, w with
  | String a m', String b w' => if Ascii.eqb a b then mismatch m' w' else true
  | _, _ => false
  end.

(** No occurrence of [m] can begin inside [w], whatever follows [w]. *)
Fixpoint clear_of (m w : string) : bool :=
  match w with
  | EmptyString => true
  | String _ w' => mismatch m w && clear_of m w'
  end.

(** A small service file: an import, the routine, the doc comment of the
    next function. *)
Definition sample_file : string := "import Stripe from 'stripe';

export async function handleSuccessfulPayment(sessionId: string) {
  return;
}

/**
 * Manually confirm a checkout session
 */
export async function confirm() {}
".

End Patch.

(** ** Basic facts *)

Lemma truthy_string_true (s : string) : JS.truthy_string s = true <-> s <> "".
Proof.
  unfold JS.truthy_string.
  destruct (String.eqb_spec s ""); simpl; split; congruence.
Qed.

Lemma truthy_false_absent (o : option string) : JS.truthy o = false <-> absent o.
Proof.
  unfold absent. destruct o as [s|]; simpl.
  - unfold JS.truthy_string. destruct (String.eqb_spec s ""); simpl; split.
    + intros _. right. congruence.
    + reflexivity.
    + discriminate.
    + intros [H|H]; congruence.
  - split; auto.
Qed.

Lemma present_and_differs_spec (o : option string) (expected : string) :
  present_and_differs o expected = true <->
  exists s, o = Some s /\ s <> "" /\ s <> expected.
Proof.
  unfold present_and_differs. destruct o as [s|].
  - rewrite andb_true_iff, negb_true_iff, truthy_string_true.
    destruct (String.eqb_spec s expected) as [E|E]; split.
    + intros [_ ?]; discriminate.
    + intros (s' & [= <-] & _ & Hd). contradiction.
    + intros [Hs _]. exists s. auto.
    + intros (s' & [= <-] & Hs & _). auto.
  - split; [discriminate | intros (s & ? & _); discriminate].
Qed.

Lemma present_and_differs_absent (o : option string) (expected : string) :
  absent o -> present_and_differs o expected = false.
Proof. intros [-> | ->]; reflexivity. Qed.

Lemma toLowerCase_empty (s : string) : JS.toLowerCase s = "" <-> s = "".
Proof. destruct s; simpl; split; congruence. Qed.

(** ** The store *)

Lemma mark_paid_id (now : Z) (o : Order) : order_id (mark_paid now o) = order_id o.
Proof. reflexivity. Qed.

Lemma find_replace_same (oid : string) (now : Z) (rows : list Order) (o : Order) :
  List.find (has_id oid) rows = Some o ->
  List.find (has_id oid) (replace_row oid (mark_paid now) rows) = Some (mark_paid now o).
Proof.
  induction rows as [|r rows IH]; simpl; [discriminate|].
  destruct (has_id oid r) eqn:E; simpl.
  - intros [= ->]. unfold has_id in *. rewrite mark_paid_id, E. reflexivity.
  - rewrite E. exact IH.
Qed.

Lemma find_replace_other (oid oid' : string) (f : Order -> Order) (rows : list Order) :
  (forall o, order_id (f o) = order_id o) ->
  oid' <> oid ->
  List.find (has_id oid') (replace_row oid f rows) = List.find (has_id oid') rows.
Proof.
  intros Hf Hne. induction rows as [|r rows IH]; simpl; [reflexivity|].
  destruct (has_id oid r) eqn:E; simpl.
  - unfold has_id in *. rewrite Hf.
    apply String.eqb_eq in E.
    destruct (String.eqb_spec (order_id r) oid'); [congruence | reflexivity].
  - destruct (has_id oid' r); [reflexivity | exact IH].
Qed.

(** ** The routine, stage by stage *)

Lemma handle_resolved w sessionId st session orderId order :
  resolves w sessionId st session orderId order ->
  handleSuccessfulPayment w sessionId st =
    if is_PAID (status order)
    then console_log
           ("Order " ++ orderId ++ " already marked as PAID; skipping duplicate webhook.") st
    else reconcile_and_commit w session orderId order st.
Proof.
  intros (Hs & Hp & Hm & Hne & Hf).
  unfold handleSuccessfulPayment, bind, await_retrieve.
  rewrite Hs. cbn. rewrite Hp. cbn. rewrite Hm. cbn.
  apply truthy_string_true in Hne. rewrite Hne. cbn.
  unfold await_findUnique. rewrite Hf. cbn.
  destruct (is_PAID (status order)); reflexivity.
Qed.

Lemma reconcile_verdict w session orderId order st :
  findUnique (db st) orderId = Some order ->
  reconcile_and_commit w session orderId order st =
    match verdict session order with
    | Some e => (Thrown e, st)
    | None => after_commit w (mark_paid (clock w) order) (committed w session orderId st)
    end.
Proof.
  intros Hf. unfold reconcile_and_commit, verdict.
  repeat match goal with
         | |- context [if ?b then _ else _] => destruct b; [reflexivity|]
         end.
  unfold bind, await_update, update. rewrite Hf. reflexivity.
Qed.

Lemma verdict_own (session : Session) (order : Order) (e : Error) :
  verdict session order = Some e -> own_error e = true.
Proof.
  unfold verdict.
  repeat match goal with
         | |- context [if ?b then _ else _] => destruct b; [intros [= <-]; reflexivity|]
         end.
  discriminate.
Qed.

Lemma verdict_none_iff (session : Session) (order : Order) :
  verdict session order = None <->
  identity_checks_pass session order /\ currency_accepted session /\
  exceeds_tolerance (sessionTotal session) (totalAmount order) = false.
Proof.
  unfold verdict, identity_checks_pass, currency_accepted, JS.truthy_string.
  destruct (present_and_differs (client_reference_id session) _);
    [split; [discriminate | intros [[? _] _]; discriminate]|].
  destruct (present_and_differs (metadata session ≫= lookup "userId") _);
    [split; [discriminate | intros [[_ ?] _]; discriminate]|].
  destruct (String.eqb_spec (sessionCurrency session) "") as [E0|E0];
    destruct (String.eqb_spec (sessionCurrency session) "usd") as [E1|E1]; simpl;
    destruct (exceeds_tolerance _ _); split; try discriminate; try tauto;
    intros (_ & [?|?] & ?); congruence.
Qed.

Ltac run_fan_out :=
  unfold after_commit, dispatch_caught, call_discarding, bind, await,
    record_call, leave_in_flight, ret, throw.

Lemma after_commit_db w updated st : db (snd (after_commit w updated st)) = db st.
Proof.
  run_fan_out.
  destruct (JS.truthy (promoCodeId updated)); cbn.
  - destruct (incrementPromoUsage w _); cbn; [|reflexivity].
    destruct (sendAnalyticsEvent w _) as [|[]]; reflexivity.
  - destruct (sendAnalyticsEvent w _) as [|[]]; reflexivity.
Qed.

Lemma after_commit_not_own w updated st e :
  fst (after_commit w updated st) = Thrown e -> own_error e = false.
Proof.
  run_fan_out.
  destruct (JS.truthy (promoCodeId updated)); cbn.
  - destruct (incrementPromoUsage w _); cbn.
    + destruct (sendAnalyticsEvent w _) as [|[]]; cbn; intros [=]; subst; reflexivity.
    + intros [=]; subst; reflexivity.
  - destruct (sendAnalyticsEvent w _) as [|[]]; cbn; intros [=]; subst; reflexivity.
Qed.

(** Once every check has passed, the update is written whatever follows. *)
Lemma commit_is_written w sessionId st session orderId order :
  resolves w sessionId st session orderId order ->
  is_PAID (status order) = false ->
  verdict session order = None ->
  handleSuccessfulPayment w sessionId st =
    after_commit w (mark_paid (clock w) order) (committed w session orderId st)
  /\ db (state_after w sessionId st) = db (committed w session orderId st).
Proof.
  intros Hr Hp Hv. pose proof Hr as (_ & _ & _ & _ & Hf).
  unfold state_after.
  rewrite (handle_resolved _ _ _ _ _ _ Hr), Hp, (reconcile_verdict _ _ _ _ _ Hf), Hv.
  split; [reflexivity | apply after_commit_db].
Qed.

(** A check that fails stops the routine where it found the state. *)
Lemma check_failure_stops w sessionId st session orderId order e :
  resolves w sessionId st session orderId order ->
  is_PAID (status order) = false ->
  verdict session order = Some e ->
  handleSuccessfulPayment w sessionId st = (Thrown e, st).
Proof.
  intros Hr Hp Hv. pose proof Hr as (_ & _ & _ & _ & Hf).
  rewrite (handle_resolved _ _ _ _ _ _ Hr), Hp, (reconcile_verdict _ _ _ _ _ Hf), Hv.
  reflexivity.
Qed.

(** On a resolved order that is not yet paid, the commit is made exactly
    when no check fails. *)
Lemma commit_iff_checks_pass w sessionId st session orderId order :
  resolves w sessionId st session orderId order ->
  is_PAID (status order) = false ->
  db (state_after w sessionId st) = db (committed w session orderId st) <->
  verdict session order = None.
Proof.
  intros Hr Hp. split.
  - destruct (verdict session order) as [e|] eqn:Hv; [|reflexivity].
    unfold state_after. rewrite (check_failure_stops _ _ _ _ _ _ _ Hr Hp Hv). cbn.
    intros H. apply (f_equal (fun d => length (payments d))) in H.
    cbn in H. rewrite length_app in H. cbn in H. lia.
  - intros Hv. apply (commit_is_written _ _ _ _ _ _ Hr Hp Hv).
Qed.

Lemma is_PAID_true (s : OrderStatus) : is_PAID s = true <-> s = PAID.
Proof. destruct s; simpl; split; congruence. Qed.

Lemma is_PAID_false (s : OrderStatus) : is_PAID s = false <-> s <> PAID.
Proof. destruct s; simpl; split; congruence. Qed.

(** ** Status gate (stage 1) *)

(** C7. A session whose payment status is not "paid" makes the routine fail
    with [PaymentIncomplete], and the state is exactly the one it started
    from: no order is touched, nothing is logged, no collaborator is
    called, nothing is left in flight. *)
Theorem unpaid_session_is_rejected w sessionId st session :
  retrieve w sessionId = inr session ->
  payment_status session <> "paid" ->
  result w sessionId st = Thrown PaymentIncomplete /\
  state_after w sessionId st = st.
Proof.
  intros Hs Hp. unfold result, state_after, handleSuccessfulPayment, bind, await_retrieve.
  rewrite Hs. cbn.
  destruct (String.eqb_spec (payment_status session) "paid"); [contradiction|].
  split; reflexivity.
Qed.

Lemma unpaid_session_is_rejected_witness :
  let s := Sample.session "unpaid" (Some "ord_1") (Some 4999) (Some "usd") in
  let paid_order := Sample.order PAID 49.99 None in
  retrieve (Sample.quiet s) "cs_1" = inr s /\
  payment_status s <> "paid" /\
  result (Sample.quiet s) "cs_1" (Sample.store paid_order) = Thrown PaymentIncomplete /\
  state_after (Sample.quiet s) "cs_1" (Sample.store paid_order) = Sample.store paid_order.
Proof.
  intros s paid_order.
  assert (H1 : retrieve (Sample.quiet s) "cs_1" = inr s) by reflexivity.
  assert (H2 : payment_status s <> "paid") by discriminate.
  exact (conj H1 (conj H2
    (unpaid_session_is_rejected (Sample.quiet s) "cs_1" (Sample.store paid_order) s H1 H2))).
Defined.

(** ** Idempotency guard (stage 2) *)

(** C1. When the session resolves to an order that is already paid, the
    routine returns normally; the store (orders and payments) is unchanged,
    no collaborator is called (no promo increment, no message, no analytics
    event) and no promise is left in flight.  The only trace is one line on
    the console. *)
Theorem already_paid_is_noop w sessionId st session orderId order :
  resolves w sessionId st session orderId order ->
  status order = PAID ->
  result w sessionId st = Normal tt /\
  db (state_after w sessionId st) = db st /\
  payments (db (state_after w sessionId st)) = payments (db st) /\
  calls (state_after w sessionId st) = calls st /\
  in_flight (state_after w sessionId st) = in_flight st /\
  console (state_after w sessionId st) =
    console st ++
    [ConsoleLog ("Order " ++ orderId ++ " already marked as PAID; skipping duplicate webhook.")].
Proof.
  intros Hr Hp. unfold result, state_after.
  rewrite (handle_resolved _ _ _ _ _ _ Hr), Hp. cbn. repeat split; reflexivity.
Qed.

Lemma already_paid_is_noop_witness :
  let w := Sample.quiet Sample.good in
  let o := Sample.order PAID 49.99 None in
  resolves w "cs_1" (Sample.store o) Sample.good "ord_1" o /\
  status o = PAID /\
  result w "cs_1" (Sample.store o) = Normal tt /\
  db (state_after w "cs_1" (Sample.store o)) = db (Sample.store o) /\
  payments (db (state_after w "cs_1" (Sample.store o))) = [] /\
  calls (state_after w "cs_1" (Sample.store o)) = [] /\
  in_flight (state_after w "cs_1" (Sample.store o)) = [] /\
  console (state_after w "cs_1" (Sample.store o)) =
    [ConsoleLog "Order ord_1 already marked as PAID; skipping duplicate webhook."].
Proof.
  intros w o.
  assert (Hr : resolves w "cs_1" (Sample.store o) Sample.good "ord_1" o).
  { repeat split; try reflexivity. discriminate. }
  assert (Hp : status o = PAID) by reflexivity.
  exact (conj Hr (conj Hp
    (already_paid_is_noop w "cs_1" (Sample.store o) Sample.good "ord_1" o Hr Hp))).
Defined.

(** X5. Confirming twice: the second run finds the order paid and adds
    nothing, so the store holds exactly the one payment of the first run. *)
Theorem repeated_confirmation_adds_nothing w sessionId st session orderId order :
  resolves w sessionId st session orderId order ->
  status order <> PAID ->
  verdict session order = None ->
  let st1 := state_after w sessionId st in
  let st2 := state_after w sessionId st1 in
  result w sessionId st1 = Normal tt /\
  db st2 = db st1 /\
  payments (db st2) = payments (db st) ++ [new_payment orderId session] /\
  calls st2 = calls st1 /\
  in_flight st2 = in_flight st1.
Proof.
  intros Hr Hp Hv st1 st2. apply is_PAID_false in Hp.
  destruct (commit_is_written _ _ _ _ _ _ Hr Hp Hv) as [_ Hdb].
  assert (Hr1 : resolves w sessionId st1 session orderId (mark_paid (clock w) order)).
  { destruct Hr as (Hs & Hpaid & Hm & Hne & Hf). repeat split; try assumption.
    unfold findUnique, st1. rewrite Hdb. cbn. apply find_replace_same. exact Hf. }
  unfold result, st2, state_after.
  rewrite (handle_resolved _ _ _ _ _ _ Hr1). cbn.
  repeat split. fold st1. unfold st1. rewrite Hdb. reflexivity.
Qed.

(** ** Errors precede the commit *)

(** C2. Whenever the routine fails with one of its six own error kinds
    (PaymentIncomplete, OrderIdNotFound, OrderNotFound, IdentityMismatch,
    UnsupportedCurrency, AmountMismatch), it has changed nothing: the state
    is the initial one, so every order is found as it was (a pending order
    is still pending) and the payments are the same. *)
Theorem own_errors_precede_mutation w sessionId st e :
  result w sessionId st = Thrown e ->
  own_error e = true ->
  state_after w sessionId st = st /\
  payments (db (state_after w sessionId st)) = payments (db st) /\
  (forall oid o, findUnique (db st) oid = Some o ->
                 findUnique (db (state_after w sessionId st)) oid = Some o).
Proof.
  intros Hres Hown.
  assert (H : state_after w sessionId st = st); [|rewrite H; auto].
  revert Hres. unfold result, state_after, handleSuccessfulPayment, bind, await_retrieve.
  destruct (retrieve w sessionId) as [reason|session]; cbn;
    [intros [= <-]; discriminate|].
  destruct (negb _); [reflexivity|].
  destruct (negb _); [reflexivity|].
  unfold await_findUnique.
  destruct (findUnique (db st) _) as [order|] eqn:Hf; cbn; [|reflexivity].
  destruct (is_PAID (status order)); [discriminate|].
  rewrite (reconcile_verdict _ _ _ _ _ Hf).
  destruct (verdict session order); [reflexivity|].
  intros He. apply after_commit_not_own in He. congruence.
Qed.

Lemma own_errors_precede_mutation_witness :
  let s := Sample.session "paid" (Some "ord_1") (Some 5100) (Some "usd") in
  let w := Sample.quiet s in
  let st := Sample.store Sample.pending in
  result w "cs_1" st = Thrown (AmountMismatch 49.99 51) /\
  own_error (AmountMismatch 49.99 51) = true /\
  state_after w "cs_1" st = st /\
  payments (db (state_after w "cs_1" st)) = payments (db st) /\
  (forall oid o, findUnique (db st) oid = Some o ->
                 findUnique (db (state_after w "cs_1" st)) oid = Some o).
Proof.
  intros s w st.
  assert (H1 : result w "cs_1" st = Thrown (AmountMismatch 49.99 51)) by (vm_compute; reflexivity).
  assert (H2 : own_error (AmountMismatch 49.99 51) = true) by reflexivity.
  exact (conj H1 (conj H2 (own_errors_precede_mutation w "cs_1" st _ H1 H2))).
Defined.

(** ** Reconciliation (stage 3) *)

(** An own error of the routine on a resolved, unpaid order is the verdict
    of the checks. *)
Lemma own_error_is_verdict w sessionId st session orderId order e :
  resolves w sessionId st session orderId order ->
  is_PAID (status order) = false ->
  result w sessionId st = Thrown e ->
  own_error e = true ->
  verdict session order = Some e.
Proof.
  intros Hr Hp Hres Hown. pose proof Hr as (_ & _ & _ & _ & Hf).
  revert Hres. unfold result.
  rewrite (handle_resolved _ _ _ _ _ _ Hr), Hp, (reconcile_verdict _ _ _ _ _ Hf).
  destruct (verdict session order).
  - cbn. congruence.
  - intros He. apply after_commit_not_own in He. congruence.
Qed.

Lemma verdict_client_reference (session : Session) (order : Order) :
  verdict session order = Some (IdentityMismatch ClientReference) ->
  present_and_differs (client_reference_id session) (order_id order) = true.
Proof.
  unfold verdict.
  destruct (present_and_differs (client_reference_id session) _); [reflexivity|].
  repeat match goal with
         | |- context [if ?b then _ else _] => destruct b; [discriminate|]
         end.
  discriminate.
Qed.

Lemma verdict_metadata_user (session : Session) (order : Order) :
  verdict session order = Some (IdentityMismatch MetadataUser) ->
  present_and_differs (metadata session ≫= lookup "userId") (userId order) = true.
Proof.
  unfold verdict.
  destruct (present_and_differs (client_reference_id session) _); [discriminate|].
  destruct (present_and_differs (metadata session ≫= lookup "userId") _); [reflexivity|].
  repeat match goal with
         | |- context [if ?b then _ else _] => destruct b; [discriminate|]
         end.
  discriminate.
Qed.

Lemma verdict_currency (session : Session) (order : Order) (c : string) :
  verdict session order = Some (UnsupportedCurrency c) ->
  c = sessionCurrency session /\ c <> "" /\ c <> "usd".
Proof.
  unfold verdict.
  do 2 (match goal with
        | |- context [if ?b then _ else _] => destruct b; [discriminate|]
        end).
  destruct (JS.truthy_string (sessionCurrency session)) eqn:Ht; cbn.
  - destruct (String.eqb_spec (sessionCurrency session) "usd"); cbn.
    + destruct (exceeds_tolerance _ _); discriminate.
    + intros [= <-]. apply truthy_string_true in Ht. auto.
  - destruct (exceeds_tolerance _ _); discriminate.
Qed.

Lemma verdict_amount (session : Session) (order : Order) (a b : float) :
  verdict session order = Some (AmountMismatch a b) ->
  exceeds_tolerance (sessionTotal session) (totalAmount order) = true.
Proof.
  unfold verdict.
  do 3 (match goal with
        | |- context [if ?b then _ else _] => destruct b; [discriminate|]
        end).
  destruct (exceeds_tolerance _ _); [reflexivity | discriminate].
Qed.

(** C8. On a resolved order that is not yet paid: if the session carries a
    client reference other than the order's id, or its metadata carries a
    user id other than the order's owner, the routine fails with an
    identity mismatch and the state is untouched.  A check whose field is
    absent is skipped: it is never the one that fails. *)
Theorem identity_mismatch_is_rejected w sessionId st session orderId order :
  resolves w sessionId st session orderId order ->
  status order <> PAID ->
  (carries_other (client_reference_id session) (order_id order) \/
   carries_other (metadata session ≫= lookup "userId") (userId order) ->
   (exists field, result w sessionId st = Thrown (IdentityMismatch field)) /\
   state_after w sessionId st = st) /\
  (absent (client_reference_id session) ->
   result w sessionId st <> Thrown (IdentityMismatch ClientReference)) /\
  (absent (metadata session ≫= lookup "userId") ->
   result w sessionId st <> Thrown (IdentityMismatch MetadataUser)).
Proof.
  intros Hr Hp. apply is_PAID_false in Hp. split; [|split].
  - intros Hd.
    assert (Hv : exists field, verdict session order = Some (IdentityMismatch field)).
    { unfold verdict.
      destruct (present_and_differs (client_reference_id session) _) eqn:E1; [eauto|].
      destruct Hd as [Hd|Hd]; apply present_and_differs_spec in Hd; [congruence|].
      rewrite Hd. eauto. }
    destruct Hv as [field Hv]. unfold result, state_after.
    rewrite (check_failure_stops _ _ _ _ _ _ _ Hr Hp Hv). split; [exists field|]; reflexivity.
  - intros Ha Hres.
    apply (own_error_is_verdict _ _ _ _ _ _ _ Hr Hp) in Hres; [|reflexivity].
    apply verdict_client_reference in Hres.
    rewrite (present_and_differs_absent _ _ Ha) in Hres. discriminate.
  - intros Ha Hres.
    apply (own_error_is_verdict _ _ _ _ _ _ _ Hr Hp) in Hres; [|reflexivity].
    apply verdict_metadata_user in Hres.
    rewrite (present_and_differs_absent _ _ Ha) in Hres. discriminate.
Qed.

Lemma identity_mismatch_is_rejected_witness :
  let s := Sample.session "paid" (Some "ord_2") (Some 4999) (Some "usd") in
  let w := Sample.quiet s in
  let st := Sample.store Sample.pending in
  resolves w "cs_1" st s "ord_1" Sample.pending /\
  status Sample.pending <> PAID /\
  carries_other (client_reference_id s) (order_id Sample.pending) /\
  (exists field, result w "cs_1" st = Thrown (IdentityMismatch field)) /\
  state_after w "cs_1" st = st.
Proof.
  intros s w st.
  assert (Hr : resolves w "cs_1" st s "ord_1" Sample.pending).
  { repeat split; try reflexivity. discriminate. }
  assert (Hp : status Sample.pending <> PAID) by discriminate.
  assert (Hc : carries_other (client_reference_id s) (order_id Sample.pending)).
  { exists "ord_2". repeat split; discriminate. }
  exact (conj Hr (conj Hp (conj Hc
    (proj1 (identity_mismatch_is_rejected w "cs_1" st s "ord_1" Sample.pending Hr Hp)
       (or_introl Hc))))).
Defined.

(** C6, as the code has it.  On a resolved order that is not yet paid and
    whose identity checks pass, a currency that is present and, lower-cased,
    is not "usd" makes the routine fail with [UnsupportedCurrency] (carrying
    the lower-cased code) before any mutation.  When the currency is absent
    the check is skipped, whatever the identity checks say: the routine
    never fails with [UnsupportedCurrency]. *)
Theorem unsupported_currency_is_rejected w sessionId st session orderId order :
  resolves w sessionId st session orderId order ->
  status order <> PAID ->
  (identity_checks_pass session order ->
   forall c, currency session = Some c -> c <> "" -> JS.toLowerCase c <> "usd" ->
     result w sessionId st = Thrown (UnsupportedCurrency (JS.toLowerCase c)) /\
     state_after w sessionId st = st) /\
  (absent (currency session) ->
   forall c, result w sessionId st <> Thrown (UnsupportedCurrency c)).
Proof.
  intros Hr Hp. apply is_PAID_false in Hp. split.
  - intros [H1 H2] c Hc Hne Hlow.
    assert (Hsc : sessionCurrency session = JS.toLowerCase c).
    { unfold sessionCurrency. rewrite Hc. cbn.
      apply truthy_string_true in Hne. rewrite Hne. reflexivity. }
    assert (Hv : verdict session order = Some (UnsupportedCurrency (JS.toLowerCase c))).
    { unfold verdict. rewrite H1, H2, Hsc.
      assert (Ht : JS.truthy_string (JS.toLowerCase c) = true).
      { apply truthy_string_true. rewrite toLowerCase_empty. exact Hne. }
      rewrite Ht. destruct (String.eqb_spec (JS.toLowerCase c) "usd"); [contradiction|].
      reflexivity. }
    unfold result, state_after.
    rewrite (check_failure_stops _ _ _ _ _ _ _ Hr Hp Hv). split; reflexivity.
  - intros Ha c Hres.
    apply (own_error_is_verdict _ _ _ _ _ _ _ Hr Hp) in Hres; [|reflexivity].
    apply verdict_currency in Hres. destruct Hres as (-> & Hne & _).
    apply Hne. unfold sessionCurrency. destruct Ha as [-> | ->]; reflexivity.
Qed.

Lemma unsupported_currency_is_rejected_witness :
  let s := Sample.session "paid" (Some "ord_1") (Some 4999) (Some "EUR") in
  let w := Sample.quiet s in
  let st := Sample.store Sample.pending in
  resolves w "cs_1" st s "ord_1" Sample.pending /\
  status Sample.pending <> PAID /\
  identity_checks_pass s Sample.pending /\
  result w "cs_1" st = Thrown (UnsupportedCurrency "eur") /\
  state_after w "cs_1" st = st.
Proof.
  intros s w st.
  assert (Hr : resolves w "cs_1" st s "ord_1" Sample.pending).
  { repeat split; try reflexivity. discriminate. }
  assert (Hp : status Sample.pending <> PAID) by discriminate.
  assert (Hi : identity_checks_pass s Sample.pending) by (split; reflexivity).
  refine (conj Hr (conj Hp (conj Hi
    (proj1 (unsupported_currency_is_rejected w "cs_1" st s "ord_1" Sample.pending Hr Hp)
       Hi "EUR" eq_refl _ _)))); discriminate.
Defined.

(** C6 as stated fails: this session reaches the reconciliation with a
    pending order and its currency is "eur", yet the routine fails on the
    client reference, which is checked first, and not with
    [UnsupportedCurrency]. *)
Lemma currency_check_comes_after_identity :
  let s := Sample.misbound_eur in
  let w := Sample.quiet s in
  let st := Sample.store Sample.pending in
  resolves w "cs_1" st s "ord_1" Sample.pending /\
  status Sample.pending = PENDING /\
  currency s = Some "eur" /\
  JS.toLowerCase "eur" <> "usd" /\
  result w "cs_1" st = Thrown (IdentityMismatch ClientReference) /\
  (forall c, result w "cs_1" st <> Thrown (UnsupportedCurrency c)).
Proof.
  intros s w st.
  assert (Hres : result w "cs_1" st = Thrown (IdentityMismatch ClientReference))
    by (vm_compute; reflexivity).
  repeat split; try reflexivity; try discriminate; exact Hres.
Qed.

(** ** Amounts: binary64 arithmetic *)

Lemma SFcompare_swap (a b : spec_float) :
  SFcompare b a = option_map CompOpp (SFcompare a b).
Proof.
  destruct a as [sa|sa| |sa ma ea], b as [sb|sb| |sb mb eb]; cbn;
    try reflexivity; try (destruct sa; reflexivity); try (destruct sb; reflexivity);
    try (destruct sa, sb; reflexivity).
  destruct sa, sb; cbn; try reflexivity.
  - rewrite (Z.compare_antisym eb ea).
    destruct (eb ?= ea)%Z; cbn; try reflexivity.
    do 2 f_equal. apply ZC4.
  - rewrite (Z.compare_antisym eb ea).
    destruct (eb ?= ea)%Z; cbn; try reflexivity.
    f_equal. apply ZC4.
Qed.

Lemma not_nan_spec (x : float) : PrimFloat.is_nan x = false -> Prim2SF x <> S754_nan.
Proof.
  unfold PrimFloat.is_nan. rewrite FloatAxioms.eqb_spec.
  intros H E. rewrite E in H. discriminate.
Qed.

(** Against a session total of zero, the difference is the order total. *)
Lemma exceeds_from_zero (o : float) : exceeds_tolerance 0 o = (0.01 <? abs o).
Proof.
  unfold exceeds_tolerance. rewrite !ltb_spec, !abs_spec, sub_spec.
  change (Prim2SF 0) with (S754_zero false).
  destruct (Prim2SF o) as [s|s| |s m e]; try destruct s; reflexivity.
Qed.

Lemma above_tolerance_exceeds (o : float) :
  (0.01 <? o) = true -> exceeds_tolerance 0 o = true.
Proof.
  rewrite exceeds_from_zero, !ltb_spec, abs_spec.
  destruct (Prim2SF o) as [s|s| |s m e]; cbn; try discriminate.
  - destruct s; [discriminate | reflexivity].
  - destruct s; [discriminate | ]. cbn. auto.
Qed.

Lemma not_above_is_at_most (o : float) :
  PrimFloat.is_nan o = false -> (0.01 <? o) = false -> (o <=? 0.01) = true.
Proof.
  intros Hn%not_nan_spec. rewrite ltb_spec, leb_spec.
  unfold SFltb, SFleb. rewrite (SFcompare_swap (Prim2SF 0.01) (Prim2SF o)).
  destruct (SFcompare (Prim2SF 0.01) (Prim2SF o)) as [[]|] eqn:E; cbn; try congruence.
  exfalso. apply Hn. destruct (Prim2SF o); try reflexivity; discriminate.
Qed.

Lemma sessionTotal_missing (session : Session) :
  amount_total session = None \/ amount_total session = Some 0 ->
  sessionTotal session = 0.
Proof. unfold sessionTotal. intros [-> | ->]; reflexivity. Qed.

(** With the identity and currency checks passed, the verdict is the
    amount check. *)
Lemma verdict_is_amount_check (session : Session) (order : Order) :
  identity_checks_pass session order ->
  currency_accepted session ->
  verdict session order =
    if exceeds_tolerance (sessionTotal session) (totalAmount order)
    then Some (AmountMismatch (totalAmount order) (sessionTotal session))
    else None.
Proof.
  intros [H1 H2] Hc. unfold verdict. rewrite H1, H2.
  destruct Hc as [-> | ->]; reflexivity.
Qed.

(** The amount check as the code computes it.  For a resolved order that
    is not yet paid and a session that passes the identity and currency
    checks, the routine fails with [AmountMismatch] exactly when the
    binary64 guard [Math.abs(amount_total / 100 - total) > 0.01] of line 47
    holds, and the error then reports the
    order total and the converted session total.  With order total 49.99,
    amount 4999 passes and the order is committed; amount 5100 fails with
    expected 49.99, got 51. *)
Theorem amount_mismatch_iff w sessionId st session orderId order :
  resolves w sessionId st session orderId order ->
  status order <> PAID ->
  identity_checks_pass session order ->
  currency_accepted session ->
  ((exists expected got, result w sessionId st = Thrown (AmountMismatch expected got)) <->
   (0.01 <? abs (sessionTotal session - totalAmount order)) = true) /\
  ((0.01 <? abs (sessionTotal session - totalAmount order)) = true ->
   result w sessionId st = Thrown (AmountMismatch (totalAmount order) (sessionTotal session))) /\
  (totalAmount order = 49.99 -> amount_total session = Some 4999 ->
   db (state_after w sessionId st) = db (committed w session orderId st) /\
   forall e, result w sessionId st = Thrown e -> own_error e = false) /\
  (totalAmount order = 49.99 -> amount_total session = Some 5100 ->
   result w sessionId st = Thrown (AmountMismatch 49.99 51)).
Proof.
  intros Hr Hp Hi Hc. apply is_PAID_false in Hp.
  pose proof (verdict_is_amount_check _ _ Hi Hc) as Hv.
  fold (exceeds_tolerance (sessionTotal session) (totalAmount order)).
  assert (Hfail : exceeds_tolerance (sessionTotal session) (totalAmount order) = true ->
    result w sessionId st = Thrown (AmountMismatch (totalAmount order) (sessionTotal session))).
  { intros Hex. rewrite Hex in Hv. unfold result.
    rewrite (check_failure_stops _ _ _ _ _ _ _ Hr Hp Hv). reflexivity. }
  split; [split|split; [exact Hfail|split]].
  - intros (a & b & Hres).
    apply (own_error_is_verdict _ _ _ _ _ _ _ Hr Hp) in Hres; [|reflexivity].
    apply verdict_amount in Hres. exact Hres.
  - intros Hex. eauto.
  - intros Ht Ha.
    assert (Hex : exceeds_tolerance (sessionTotal session) (totalAmount order) = false).
    { unfold sessionTotal. rewrite Ht, Ha. vm_compute. reflexivity. }
    rewrite Hex in Hv.
    destruct (commit_is_written _ _ _ _ _ _ Hr Hp Hv) as [Heq Hdb].
    split; [exact Hdb|]. intros e. unfold result. rewrite Heq.
    apply after_commit_not_own.
  - intros Ht Ha.
    assert (Hex : exceeds_tolerance (sessionTotal session) (totalAmount order) = true).
    { unfold sessionTotal. rewrite Ht, Ha. vm_compute. reflexivity. }
    rewrite (Hfail Hex). unfold sessionTotal. rewrite Ht, Ha. reflexivity.
Qed.

Lemma amount_mismatch_iff_witness :
  let s := Sample.session "paid" (Some "ord_1") (Some 5100) (Some "usd") in
  let w := Sample.quiet s in
  let st := Sample.store Sample.pending in
  resolves w "cs_1" st s "ord_1" Sample.pending /\
  status Sample.pending <> PAID /\
  identity_checks_pass s Sample.pending /\
  currency_accepted s /\
  (0.01 <? abs (sessionTotal s - totalAmount Sample.pending)) = true /\
  result w "cs_1" st = Thrown (AmountMismatch 49.99 51).
Proof.
  intros s w st.
  assert (Hr : resolves w "cs_1" st s "ord_1" Sample.pending).
  { repeat split; try reflexivity. discriminate. }
  assert (Hp : status Sample.pending <> PAID) by discriminate.
  assert (Hi : identity_checks_pass s Sample.pending) by (split; reflexivity).
  assert (Hc : currency_accepted s) by (right; reflexivity).
  assert (Hx : (0.01 <? abs (sessionTotal s - totalAmount Sample.pending)) = true)
    by (vm_compute; reflexivity).
  exact (conj Hr (conj Hp (conj Hi (conj Hc (conj Hx
    (proj1 (proj2 (amount_mismatch_iff w "cs_1" st s "ord_1" Sample.pending Hr Hp Hi Hc))
       Hx)))))).
Defined.

(** The accepted case of the example, run from end to end: order total
    49.99, amount 4999, currency "usd". *)
Example confirmation_of_4999_succeeds :
  let w := Sample.quiet Sample.good in
  let st := Sample.store Sample.pending in
  result w "cs_1" st = Normal tt /\
  findUnique (db (state_after w "cs_1" st)) "ord_1"
    = Some (mark_paid (clock w) Sample.pending) /\
  payments (db (state_after w "cs_1" st)) = [new_payment "ord_1" Sample.good].
Proof. vm_compute. repeat split; reflexivity. Qed.

(** The comparison is the binary64 one: at a difference of one cent it can
    fall on either side. *)
Example one_cent_apart :
  exceeds_tolerance (5000 / 100) 49.99 = false /\
  exceeds_tolerance (7 / 100) 0.06 = true.
Proof. vm_compute. split; reflexivity. Qed.

(** C5.  The routine fails with [AmountMismatch] on a difference that does
    not exceed 0.01.  The order total is 49.99 (4999 cents, and [4999 / 100]
    is the very number stored) and the session passes the identity and
    currency checks.  With [amount_total] 4998 the difference is one cent,
    exactly 0.01, yet the routine throws (expected 49.99, got 49.98) and
    leaves the order pending: in binary64 [4998 / 100 - 49.99] is
    [-0.010000000000005116].  With [amount_total] 5000, one cent the other
    way, the routine commits. *)
Theorem one_cent_short_is_rejected :
  let short := Sample.session "paid" (Some "ord_1") (Some 4998) (Some "usd") in
  let over := Sample.session "paid" (Some "ord_1") (Some 5000) (Some "usd") in
  let st := Sample.store Sample.pending in
  (resolves (Sample.quiet short) "cs_1" st short "ord_1" Sample.pending /\
   identity_checks_pass short Sample.pending /\
   currency_accepted short) /\
  totalAmount Sample.pending = 4999 / 100 /\
  (Z.abs (4998 - 4999) <=? 1)%Z = true /\
  sessionTotal short - totalAmount Sample.pending = -0.010000000000005116 /\
  result (Sample.quiet short) "cs_1" st = Thrown (AmountMismatch 49.99 49.98) /\
  state_after (Sample.quiet short) "cs_1" st = st /\
  (Z.abs (5000 - 4999) <=? 1)%Z = true /\
  result (Sample.quiet over) "cs_1" st = Normal tt /\
  findUnique (db (state_after (Sample.quiet over) "cs_1" st)) "ord_1"
    = Some (mark_paid (clock (Sample.quiet over)) Sample.pending).
Proof.
  intros short over st. split.
  - split; [repeat split; try reflexivity; discriminate|].
    split; [split; reflexivity | right; reflexivity].
  - repeat split; vm_compute; reflexivity.
Qed.

(** C10, as the code has it.  When [amount_total] is absent or zero the
    converted session total is 0.  If, in addition, the identity and
    currency checks pass, then the routine fails with [AmountMismatch]
    (expected the order total, got 0) before any mutation for every order
    total above 0.01, and it gets past the amount check only when the order
    total is at most 0.01 or is not a number. *)
Theorem missing_amount_counts_as_zero w sessionId st session orderId order :
  resolves w sessionId st session orderId order ->
  status order <> PAID ->
  amount_total session = None \/ amount_total session = Some 0 ->
  sessionTotal session = 0 /\
  (identity_checks_pass session order ->
   currency_accepted session ->
   ((0.01 <? totalAmount order) = true ->
    result w sessionId st = Thrown (AmountMismatch (totalAmount order) 0) /\
    state_after w sessionId st = st) /\
   ((forall expected got, result w sessionId st <> Thrown (AmountMismatch expected got)) ->
    (totalAmount order <=? 0.01) = true \/ PrimFloat.is_nan (totalAmount order) = true)).
Proof.
  intros Hr Hp Hz. apply is_PAID_false in Hp.
  pose proof (sessionTotal_missing _ Hz) as Ht.
  split; [exact Ht|]. intros Hi Hc.
  pose proof (verdict_is_amount_check _ _ Hi Hc) as Hv. rewrite Ht in Hv.
  assert (Hfail : (0.01 <? totalAmount order) = true ->
    result w sessionId st = Thrown (AmountMismatch (totalAmount order) 0) /\
    state_after w sessionId st = st).
  { intros Habove. rewrite (above_tolerance_exceeds _ Habove) in Hv.
    unfold result, state_after.
    rewrite (check_failure_stops _ _ _ _ _ _ _ Hr Hp Hv). split; reflexivity. }
  split; [exact Hfail|]. intros Hpass.
  assert (Hnot : (0.01 <? totalAmount order) = false).
  { destruct (0.01 <? totalAmount order) eqn:E; [|reflexivity].
    destruct (Hfail eq_refl) as [Hres _]. exfalso. exact (Hpass _ _ Hres). }
  destruct (PrimFloat.is_nan (totalAmount order)) eqn:Hn; [right; reflexivity|].
  left. apply not_above_is_at_most; assumption.
Qed.

Lemma missing_amount_counts_as_zero_witness :
  let s := Sample.session "paid" (Some "ord_1") None (Some "usd") in
  let w := Sample.quiet s in
  let st := Sample.store Sample.pending in
  resolves w "cs_1" st s "ord_1" Sample.pending /\
  status Sample.pending <> PAID /\
  amount_total s = None /\
  identity_checks_pass s Sample.pending /\
  currency_accepted s /\
  (0.01 <? totalAmount Sample.pending) = true /\
  result w "cs_1" st = Thrown (AmountMismatch (totalAmount Sample.pending) 0) /\
  state_after w "cs_1" st = st.
Proof.
  intros s w st.
  assert (Hr : resolves w "cs_1" st s "ord_1" Sample.pending).
  { repeat split; try reflexivity. discriminate. }
  assert (Hp : status Sample.pending <> PAID) by discriminate.
  assert (Hz : amount_total s = None) by reflexivity.
  assert (Hi : identity_checks_pass s Sample.pending) by (split; reflexivity).
  assert (Hc : currency_accepted s) by (right; reflexivity).
  assert (Hx : (0.01 <? totalAmount Sample.pending) = true) by (vm_compute; reflexivity).
  exact (conj Hr (conj Hp (conj Hz (conj Hi (conj Hc (conj Hx
    (proj1 (proj2 (missing_amount_counts_as_zero w "cs_1" st s "ord_1" Sample.pending
                     Hr Hp (or_introl Hz)) Hi Hc) Hx))))))).
Defined.

(** C10 as stated fails, twice.  A paid session without amount and a
    resolved pending order of 49.99: the routine fails with
    [UnsupportedCurrency], since the currency is checked before the amount.
    And a paid session without amount, in usd, on a pending order whose
    total is not a number: the routine gets past the amount check and
    commits, though that total is not at most 0.01. *)
Lemma missing_amount_behind_currency_check :
  let s := Sample.eur_without_amount in
  let w := Sample.quiet s in
  let st := Sample.store Sample.pending in
  let s' := Sample.session "paid" (Some "ord_1") None (Some "usd") in
  let w' := Sample.quiet s' in
  let st' := Sample.store Sample.nan_order in
  (resolves w "cs_1" st s "ord_1" Sample.pending /\
   status Sample.pending = PENDING /\
   amount_total s = None /\
   (0.01 <? totalAmount Sample.pending) = true /\
   result w "cs_1" st = Thrown (UnsupportedCurrency "eur") /\
   (forall expected got, result w "cs_1" st <> Thrown (AmountMismatch expected got))) /\
  (resolves w' "cs_1" st' s' "ord_1" Sample.nan_order /\
   status Sample.nan_order = PENDING /\
   amount_total s' = None /\
   identity_checks_pass s' Sample.nan_order /\
   currency_accepted s' /\
   result w' "cs_1" st' = Normal tt /\
   findUnique (db (state_after w' "cs_1" st')) "ord_1"
     = Some (mark_paid (clock w') Sample.nan_order) /\
   (totalAmount Sample.nan_order <=? 0.01) = false).
Proof.
  intros s w st s' w' st'. split.
  - assert (Hres : result w "cs_1" st = Thrown (UnsupportedCurrency "eur"))
      by (vm_compute; reflexivity).
    split; [repeat split; try reflexivity; discriminate|].
    do 3 (split; [reflexivity|]).
    split; [exact Hres|]. intros expected got. rewrite Hres. discriminate.
  - split; [repeat split; try reflexivity; discriminate|].
    do 2 (split; [reflexivity|]).
    split; [split; reflexivity|]. split; [right; reflexivity|].
    repeat split; vm_compute; reflexivity.
Qed.

(** ** Commit (stage 4) *)

(** A normal return on an unpaid order means every check has passed. *)
Lemma normal_return_passed_checks w sessionId st session orderId order :
  resolves w sessionId st session orderId order ->
  is_PAID (status order) = false ->
  result w sessionId st = Normal tt ->
  verdict session order = None.
Proof.
  intros Hr Hp. pose proof Hr as (_ & _ & _ & _ & Hf). unfold result.
  rewrite (handle_resolved _ _ _ _ _ _ Hr), Hp, (reconcile_verdict _ _ _ _ _ Hf).
  destruct (verdict session order); [discriminate | reflexivity].
Qed.

Lemma or_else_present (s d : string) : s <> "" -> JS.or_else (Some s) d = s.
Proof. intros H%truthy_string_true. unfold JS.or_else. rewrite H. reflexivity. Qed.

Lemma or_else_absent (o : option string) (d : string) : absent o -> JS.or_else o d = d.
Proof. intros [-> | ->]; reflexivity. Qed.

(** C9. A successful confirmation of an order that was not yet paid leaves
    that order with status [PAID] and [paidAt] set to the time of the
    update (its other fields, and all other orders, as they were), and adds
    exactly one payment: for this order, with the session's payment intent,
    as amount the session's [amount_total] divided by 100 (0 when it is
    absent or falsy), the session currency ("usd" when absent),
    status [COMPLETED], and as method the first entry of the session's
    method types ("card" when the list is absent or empty). *)
Theorem successful_confirmation_commits w sessionId st session orderId order :
  resolves w sessionId st session orderId order ->
  status order <> PAID ->
  result w sessionId st = Normal tt ->
  let st' := state_after w sessionId st in
  (exists updated,
     findUnique (db st') orderId = Some updated /\
     status updated = PAID /\
     paidAt updated = Some (clock w) /\
     updated = mark_paid (clock w) order) /\
  (forall other, other <> orderId -> findUnique (db st') other = findUnique (db st) other) /\
  (exists p,
     payments (db st') = payments (db st) ++ [p] /\
     pay_order p = orderId /\
     stripePaymentId p = payment_intent session /\
     amount p = JS.number_or (amount_total session) 0 / 100 /\
     (forall minor, amount_total session = Some minor ->
                    JS.falsy_number minor = false -> amount p = minor / 100) /\
     (amount_total session = None -> amount p = 0) /\
     exceeds_tolerance (amount p) (totalAmount order) = false /\
     pay_status p = COMPLETED /\
     (forall c, currency session = Some c -> c <> "" -> pay_currency p = c) /\
     (absent (currency session) -> pay_currency p = "usd") /\
     (forall m rest, payment_method_types session = Some (m :: rest) -> m <> "" ->
                     paymentMethod p = m) /\
     (payment_method_types session = None \/ payment_method_types session = Some [] ->
      paymentMethod p = "card")).
Proof.
  intros Hr Hp Hres st'. apply is_PAID_false in Hp.
  pose proof (normal_return_passed_checks _ _ _ _ _ _ Hr Hp Hres) as Hv.
  destruct (commit_is_written _ _ _ _ _ _ Hr Hp Hv) as [_ Hdb].
  pose proof Hr as (_ & _ & _ & _ & Hf).
  subst st'. rewrite Hdb. split; [|split].
  - exists (mark_paid (clock w) order). repeat split.
    unfold findUnique. cbn. apply find_replace_same. exact Hf.
  - intros other Hne. unfold findUnique. cbn.
    apply find_replace_other; [intros; reflexivity | exact Hne].
  - exists (new_payment orderId session). cbn. unfold sessionTotal.
    apply verdict_none_iff in Hv. destruct Hv as (_ & _ & Hex).
    unfold sessionTotal in Hex. repeat split.
    + intros minor -> Hm. cbn. rewrite Hm. reflexivity.
    + intros ->. reflexivity.
    + exact Hex.
    + intros c -> Hc. apply or_else_present. exact Hc.
    + apply or_else_absent.
    + intros m rest -> Hm. cbn. apply or_else_present. exact Hm.
    + intros [-> | ->]; reflexivity.
Qed.

Lemma successful_confirmation_commits_witness :
  let w := Sample.mail_down in
  let st := Sample.store Sample.pending in
  let st' := state_after w "cs_1" st in
  resolves w "cs_1" st Sample.good "ord_1" Sample.pending /\
  status Sample.pending <> PAID /\
  result w "cs_1" st = Normal tt /\
  (exists updated,
     findUnique (db st') "ord_1" = Some updated /\
     status updated = PAID /\
     paidAt updated = Some (clock w) /\
     updated = mark_paid (clock w) Sample.pending) /\
  (exists p,
     payments (db st') = [p] /\
     pay_order p = "ord_1" /\
     stripePaymentId p = "pi_1" /\
     amount p = 49.99 /\
     pay_status p = COMPLETED /\
     pay_currency p = "usd" /\
     paymentMethod p = "card").
Proof.
  intros w st st'.
  assert (Hr : resolves w "cs_1" st Sample.good "ord_1" Sample.pending).
  { repeat split; try reflexivity. discriminate. }
  assert (Hp : status Sample.pending <> PAID) by discriminate.
  assert (Hres : result w "cs_1" st = Normal tt) by (vm_compute; reflexivity).
  destruct (successful_confirmation_commits w "cs_1" st Sample.good "ord_1" Sample.pending
              Hr Hp Hres)
    as (Hu & _ & p & Hps & Ho & Hi & _ & Ha & _ & _ & Hs & Hc & _ & Hm & _).
  refine (conj Hr (conj Hp (conj Hres (conj Hu _)))).
  exists p. refine (conj Hps (conj Ho (conj Hi (conj _ (conj Hs (conj _ _)))))).
  - rewrite (Ha 4999 eq_refl eq_refl). reflexivity.
  - apply (Hc "usd"); [reflexivity | discriminate].
  - apply (Hm "card" []); [reflexivity | discriminate].
Defined.

(** ** After the commit *)

Lemma truthy_present (s : string) : s <> "" -> JS.truthy (Some s) = true.
Proof. intros H. apply truthy_string_true. exact H. Qed.

(** The promo step rejects: the routine stops at the [await]. *)
Lemma after_commit_promo_rejected w updated st promo reason :
  promoCodeId updated = Some promo ->
  promo <> "" ->
  incrementPromoUsage w promo = JS.Rejected reason ->
  after_commit w updated st =
    (Thrown (Failure IncrementPromoUsage reason),
     {| db := db st; console := console st;
        calls := calls st ++ [IncrementPromoUsageCall promo];
        in_flight := in_flight st |}).
Proof.
  intros Hpromo Hne Hrej. run_fan_out.
  rewrite Hpromo, (truthy_present _ Hne). cbn. rewrite Hrej. reflexivity.
Qed.

(** The promo step completes: both mails are dispatched with their
    handlers, and the analytics call decides how the routine ends. *)
Lemma after_commit_fan_out w updated st :
  promo_step_completes w updated ->
  let mail := confirmation_mail (frontendUrl w) updated in
  let guide := guide_mail (frontendUrl w) updated in
  let caught_mails :=
    [ {| promise := sendOrderConfirmation w mail;
         on_rejected := Some "Failed to send order confirmation email:" |};
      {| promise := sendPromptGuide w guide;
         on_rejected := Some "Failed to send prompt guide email:" |} ] in
  exists promo_calls discarded,
    calls (snd (after_commit w updated st)) =
      calls st ++ promo_calls ++
        [SendOrderConfirmationCall mail; SendPromptGuideCall guide;
         SendAnalyticsEventCall (paid_event updated)] /\
    console (snd (after_commit w updated st)) = console st /\
    in_flight (snd (after_commit w updated st)) = in_flight st ++ caught_mails ++ discarded /\
    (forall f, In f discarded -> on_rejected f = None) /\
    match sendAnalyticsEvent w (paid_event updated) with
    | JS.Throws reason =>
        fst (after_commit w updated st) = Thrown (Failure SendAnalyticsEvent reason) /\
        discarded = []
    | JS.Returns None =>
        fst (after_commit w updated st) = Normal tt /\ discarded = []
    | JS.Returns (Some p) =>
        fst (after_commit w updated st) = Normal tt /\
        discarded = [ {| promise := p; on_rejected := None |} ]
    end.
Proof.
  intros Hpromo mail guide caught_mails. unfold promo_step_completes in Hpromo.
  subst mail guide caught_mails. unfold frontendUrl. run_fan_out.
  destruct (JS.truthy (promoCodeId updated)).
  - rewrite (Hpromo eq_refl). cbn.
    exists [IncrementPromoUsageCall (default "" (promoCodeId updated))].
    destruct (sendAnalyticsEvent w _) as [reason|[p|]]; cbn.
    + exists []. rewrite <- !app_assoc. cbn. intuition.
    + exists [ {| promise := p; on_rejected := None |} ]. rewrite <- !app_assoc. cbn.
      intuition; subst; reflexivity.
    + exists []. rewrite <- !app_assoc. cbn. intuition.
  - cbn. exists [].
    destruct (sendAnalyticsEvent w _) as [reason|[p|]]; cbn.
    + exists []. rewrite <- !app_assoc. cbn. intuition.
    + exists [ {| promise := p; on_rejected := None |} ]. rewrite <- !app_assoc. cbn.
      intuition; subst; reflexivity.
    + exists []. rewrite <- !app_assoc. cbn. intuition.
Qed.

Lemma handler_output_app (st : State) (more : list InFlight) (fs : list InFlight) :
  in_flight st = fs ++ more ->
  handler_output st = List.concat (List.map settle_one fs) ++ List.concat (List.map settle_one more).
Proof.
  intros H. unfold handler_output. rewrite H, List.map_app, List.concat_app. reflexivity.
Qed.

Lemma settle_caught (p : JS.Promise) (message : string) :
  settle_one {| promise := p; on_rejected := Some message |} = caught p message.
Proof. destruct p; reflexivity. Qed.

Lemma settle_unhandled (fs : list InFlight) :
  (forall f, In f fs -> on_rejected f = None) ->
  List.concat (List.map settle_one fs) = [].
Proof.
  induction fs as [|f fs IH]; intros H; [reflexivity|]. cbn.
  rewrite IH by (intros; apply H; right; assumption).
  unfold settle_one. rewrite (H f) by (left; reflexivity).
  destruct (promise f); reflexivity.
Qed.

(** C3, as the code has it.  When every check has passed and the order
    references a promo code, the routine awaits the promo increment: if the
    increment rejects, the routine fails with that rejection.  The commit
    is not undone (the order is paid and its payment recorded), and the
    routine stops there: the increment is the only call made, and no
    message or analytics event is dispatched. *)
Theorem promo_failure_propagates w sessionId st session orderId order promo reason :
  resolves w sessionId st session orderId order ->
  status order <> PAID ->
  verdict session order = None ->
  promoCodeId order = Some promo ->
  promo <> "" ->
  incrementPromoUsage w promo = JS.Rejected reason ->
  result w sessionId st = Thrown (Failure IncrementPromoUsage reason) /\
  findUnique (db (state_after w sessionId st)) orderId = Some (mark_paid (clock w) order) /\
  payments (db (state_after w sessionId st)) = payments (db st) ++ [new_payment orderId session] /\
  calls (state_after w sessionId st) = calls st ++ [IncrementPromoUsageCall promo] /\
  in_flight (state_after w sessionId st) = in_flight st.
Proof.
  intros Hr Hp Hv Hpromo Hne Hrej. apply is_PAID_false in Hp.
  destruct (commit_is_written _ _ _ _ _ _ Hr Hp Hv) as [Heq _].
  pose proof Hr as (_ & _ & _ & _ & Hf).
  unfold result, state_after. rewrite Heq.
  rewrite (after_commit_promo_rejected w (mark_paid (clock w) order) _ promo reason
             Hpromo Hne Hrej). cbn.
  repeat split. apply find_replace_same. exact Hf.
Qed.

Lemma promo_failure_propagates_witness :
  let w := Sample.promo_down in
  let st := Sample.store Sample.promo_order in
  resolves w "cs_1" st Sample.good "ord_1" Sample.promo_order /\
  status Sample.promo_order <> PAID /\
  verdict Sample.good Sample.promo_order = None /\
  promoCodeId Sample.promo_order = Some "SAVE10" /\
  incrementPromoUsage w "SAVE10" = JS.Rejected "promo store unavailable" /\
  result w "cs_1" st = Thrown (Failure IncrementPromoUsage "promo store unavailable") /\
  findUnique (db (state_after w "cs_1" st)) "ord_1"
    = Some (mark_paid (clock w) Sample.promo_order) /\
  payments (db (state_after w "cs_1" st)) = [new_payment "ord_1" Sample.good] /\
  calls (state_after w "cs_1" st) = [IncrementPromoUsageCall "SAVE10"] /\
  in_flight (state_after w "cs_1" st) = [].
Proof.
  intros w st.
  assert (Hr : resolves w "cs_1" st Sample.good "ord_1" Sample.promo_order).
  { repeat split; try reflexivity. discriminate. }
  assert (Hp : status Sample.promo_order <> PAID) by discriminate.
  assert (Hv : verdict Sample.good Sample.promo_order = None) by (vm_compute; reflexivity).
  assert (Hc : promoCodeId Sample.promo_order = Some "SAVE10") by reflexivity.
  assert (Hne : "SAVE10" <> "") by discriminate.
  assert (Hj : incrementPromoUsage w "SAVE10" = JS.Rejected "promo store unavailable")
    by reflexivity.
  exact (conj Hr (conj Hp (conj Hv (conj Hc (conj Hj
    (promo_failure_propagates w "cs_1" st Sample.good "ord_1" Sample.promo_order
       "SAVE10" "promo store unavailable" Hr Hp Hv Hc Hne Hj)))))).
Defined.

(** C3 as stated fails: the commit succeeds, the updated order references
    a promo code, the increment rejects, and the caller gets that
    rejection instead of a normal return. *)
Lemma promo_failure_reaches_caller :
  let w := Sample.promo_down in
  let st := Sample.store Sample.promo_order in
  resolves w "cs_1" st Sample.good "ord_1" Sample.promo_order /\
  findUnique (db (state_after w "cs_1" st)) "ord_1"
    = Some (mark_paid (clock w) Sample.promo_order) /\
  promoCodeId (mark_paid (clock w) Sample.promo_order) = Some "SAVE10" /\
  incrementPromoUsage w "SAVE10" = JS.Rejected "promo store unavailable" /\
  result w "cs_1" st = Thrown (Failure IncrementPromoUsage "promo store unavailable") /\
  result w "cs_1" st <> Normal tt.
Proof.
  intros w st.
  assert (Hres : result w "cs_1" st
                 = Thrown (Failure IncrementPromoUsage "promo store unavailable"))
    by (vm_compute; reflexivity).
  split; [repeat split; try reflexivity; discriminate|].
  split; [vm_compute; reflexivity|].
  do 2 (split; [reflexivity|]).
  split; [exact Hres|]. rewrite Hres. discriminate.
Qed.

(** C4, as the code has it.  When every check has passed and the promo
    step completes, the two mails are dispatched with a handler each: a
    rejection of either is written to [console.error] by its handler and
    nothing else comes of it.  The routine returns normally whenever the
    analytics call returns, whatever the three promises do.  The analytics
    call has no handler: a promise it returns is dropped, and its rejection
    is unhandled and writes nothing. *)
Theorem messaging_failures_are_contained w sessionId st session orderId order :
  resolves w sessionId st session orderId order ->
  status order <> PAID ->
  verdict session order = None ->
  promo_step_completes w order ->
  let updated := mark_paid (clock w) order in
  let mail := confirmation_mail (frontendUrl w) updated in
  let guide := guide_mail (frontendUrl w) updated in
  let st' := state_after w sessionId st in
  (forall discarded,
     sendAnalyticsEvent w (paid_event updated) = JS.Returns discarded ->
     result w sessionId st = Normal tt) /\
  handler_output st' =
    handler_output st
    ++ caught (sendOrderConfirmation w mail) "Failed to send order confirmation email:"
    ++ caught (sendPromptGuide w guide) "Failed to send prompt guide email:" /\
  console st' = console st ++ [ConsoleLog ("? Order " ++ orderId ++ " marked as PAID")] /\
  (forall reason,
     sendAnalyticsEvent w (paid_event updated) = JS.Returns (Some (JS.Rejected reason)) ->
     In reason (unhandled_rejections st')) /\
  db st' = db (committed w session orderId st).
Proof.
  intros Hr Hp Hv Hpromo updated mail guide st'. apply is_PAID_false in Hp.
  destruct (commit_is_written _ _ _ _ _ _ Hr Hp Hv) as [Heq Hdb].
  assert (Hpromo' : promo_step_completes w updated) by exact Hpromo.
  destruct (after_commit_fan_out w updated (committed w session orderId st) Hpromo')
    as (promo_calls & discarded & _ & Hcon & Hfl & Hnone & Hend).
  fold updated in Hend. fold updated mail guide in Hfl.
  unfold result. subst st'. unfold state_after. rewrite Heq.
  split; [|split; [|split; [|split]]].
  - intros d Hd. fold updated. rewrite Hd in Hend. destruct d; apply Hend.
  - fold updated. rewrite app_assoc in Hfl. rewrite (handler_output_app _ _ _ Hfl).
    rewrite (settle_unhandled _ Hnone), app_nil_r, List.map_app, List.concat_app.
    change (in_flight (committed w session orderId st)) with (in_flight st).
    fold (handler_output st). f_equal.
    change (List.concat (List.map settle_one [?a; ?b])) with (settle_one a ++ settle_one b ++ []).
    rewrite !settle_caught, app_nil_r. reflexivity.
  - fold updated. rewrite Hcon. reflexivity.
  - intros reason Hd. rewrite Hd in Hend. destruct Hend as [_ ->]. fold updated.
    unfold unhandled_rejections. rewrite Hfl, !List.map_app, !List.concat_app.
    apply in_or_app. right. apply in_or_app. right. cbn. left. reflexivity.
  - apply after_commit_db.
Qed.

Lemma messaging_failures_are_contained_witness :
  let w := Sample.mail_down in
  let st := Sample.store Sample.pending in
  resolves w "cs_1" st Sample.good "ord_1" Sample.pending /\
  status Sample.pending <> PAID /\
  verdict Sample.good Sample.pending = None /\
  promo_step_completes w Sample.pending /\
  result w "cs_1" st = Normal tt /\
  handler_output (state_after w "cs_1" st) =
    [ConsoleError "Failed to send order confirmation email:" "smtp unavailable";
     ConsoleError "Failed to send prompt guide email:" "smtp unavailable"].
Proof.
  intros w st.
  assert (Hr : resolves w "cs_1" st Sample.good "ord_1" Sample.pending).
  { repeat split; try reflexivity. discriminate. }
  assert (Hp : status Sample.pending <> PAID) by discriminate.
  assert (Hv : verdict Sample.good Sample.pending = None) by (vm_compute; reflexivity).
  assert (Hc : promo_step_completes w Sample.pending) by (intros H; discriminate H).
  destruct (messaging_failures_are_contained w "cs_1" st Sample.good "ord_1" Sample.pending
              Hr Hp Hv Hc) as (Hres & Hout & _).
  exact (conj Hr (conj Hp (conj Hv (conj Hc (conj (Hres None eq_refl) Hout))))).
Defined.

(** C4 as stated fails for the analytics emission, which the routine
    neither catches nor logs.  After a successful commit with no promo
    code: when the analytics call raises, the caller gets the failure and
    the console has no error line; when it returns a promise that rejects,
    the routine returns normally and the rejection stays unhandled, again
    with no error line. *)
Lemma analytics_failure_is_not_caught :
  let st := Sample.store Sample.pending in
  let thrown := state_after Sample.analytics_down "cs_1" st in
  let dropped := state_after Sample.analytics_rejecting "cs_1" st in
  (resolves Sample.analytics_down "cs_1" st Sample.good "ord_1" Sample.pending /\
   findUnique (db thrown) "ord_1"
     = Some (mark_paid (clock Sample.analytics_down) Sample.pending) /\
   result Sample.analytics_down "cs_1" st
     = Thrown (Failure SendAnalyticsEvent "analytics unavailable") /\
   settled_console thrown = [ConsoleLog "? Order ord_1 marked as PAID"]) /\
  (resolves Sample.analytics_rejecting "cs_1" st Sample.good "ord_1" Sample.pending /\
   findUnique (db dropped) "ord_1"
     = Some (mark_paid (clock Sample.analytics_rejecting) Sample.pending) /\
   result Sample.analytics_rejecting "cs_1" st = Normal tt /\
   settled_console dropped = [ConsoleLog "? Order ord_1 marked as PAID"] /\
   unhandled_rejections dropped = ["analytics unavailable"]).
Proof.
  intros st thrown dropped. split.
  - split; [repeat split; try reflexivity; discriminate|].
    repeat split; vm_compute; reflexivity.
  - split; [repeat split; try reflexivity; discriminate|].
    repeat split; vm_compute; reflexivity.
Qed.

Local Close Scope float_scope.

(** ** Order resolution (stage 2) *)

Lemma find_has_id (d : Db) (oid : string) (o : Order) :
  findUnique d oid = Some o -> order_id o = oid.
Proof.
  unfold findUnique. intros H. apply List.find_some in H. destruct H as [_ H].
  unfold has_id in H. apply String.eqb_eq in H. exact H.
Qed.

Lemma truthy_some (o : option string) :
  JS.truthy o = true -> exists s, o = Some s /\ s <> "".
Proof.
  destruct o as [s|]; cbn; [|discriminate].
  intros H. exists s. split; [reflexivity|]. apply truthy_string_true. exact H.
Qed.

(** How far a run gets before the order is in hand. *)
Lemma run_cases w sessionId st :
  (exists reason,
     retrieve w sessionId = inl reason /\
     handleSuccessfulPayment w sessionId st = (Thrown (Failure StripeRetrieve reason), st)) \/
  (exists session,
     retrieve w sessionId = inr session /\
     ((payment_status session <> "paid" /\
       handleSuccessfulPayment w sessionId st = (Thrown PaymentIncomplete, st)) \/
      (payment_status session = "paid" /\
       absent (metadata session ≫= lookup "orderId") /\
       handleSuccessfulPayment w sessionId st = (Thrown OrderIdNotFound, st)) \/
      (exists orderId,
         payment_status session = "paid" /\
         metadata session ≫= lookup "orderId" = Some orderId /\ orderId <> "" /\
         findUnique (db st) orderId = None /\
         handleSuccessfulPayment w sessionId st = (Thrown OrderNotFound, st)) \/
      (exists orderId order, resolves w sessionId st session orderId order))).
Proof.
  unfold handleSuccessfulPayment, bind, await_retrieve.
  destruct (retrieve w sessionId) as [reason|session] eqn:Hs; cbn.
  { left. exists reason. auto. }
  right. exists session. split; [reflexivity|].
  destruct (String.eqb_spec (payment_status session) "paid") as [Hp|Hp]; cbn.
  2:{ left. auto. }
  right.
  destruct (JS.truthy (metadata session ≫= lookup "orderId")) eqn:Ht; cbn.
  2:{ left. apply truthy_false_absent in Ht. auto. }
  right. destruct (truthy_some _ Ht) as (orderId & Hm & Hne). rewrite Hm. cbn.
  unfold await_findUnique.
  destruct (findUnique (db st) orderId) as [order|] eqn:Hf; cbn.
  - right. exists orderId, order. repeat split; assumption.
  - left. exists orderId. auto.
Qed.

Lemma verdict_kind (session : Session) (order : Order) (e : Error) :
  verdict session order = Some e ->
  e <> PaymentIncomplete /\ e <> OrderIdNotFound /\ e <> OrderNotFound.
Proof.
  unfold verdict.
  repeat match goal with
         | |- context [if ?b then _ else _] =>
             destruct b; [intros [= <-]; repeat split; discriminate|]
         end.
  discriminate.
Qed.

(** On a resolved order the routine never reports a missing id or order. *)
Lemma resolved_result_kind w sessionId st session orderId order :
  resolves w sessionId st session orderId order ->
  result w sessionId st <> Thrown OrderIdNotFound /\
  result w sessionId st <> Thrown OrderNotFound.
Proof.
  intros Hr. pose proof Hr as (_ & _ & _ & _ & Hf). unfold result.
  rewrite (handle_resolved _ _ _ _ _ _ Hr).
  destruct (is_PAID (status order)); [split; discriminate|].
  rewrite (reconcile_verdict _ _ _ _ _ Hf).
  destruct (verdict session order) as [e|] eqn:Hv.
  - destruct (verdict_kind _ _ _ Hv) as (_ & H1 & H2). cbn. split; congruence.
  - split; intros He; apply after_commit_not_own in He; discriminate.
Qed.

(** X1. A paid session fails with [OrderIdNotFound] exactly when its metadata
    is missing, has no [orderId], or has an empty one; nothing has been
    touched then. *)
Theorem missing_order_id_is_rejected w sessionId st session :
  retrieve w sessionId = inr session ->
  payment_status session = "paid" ->
  (result w sessionId st = Thrown OrderIdNotFound <->
   absent (metadata session ≫= lookup "orderId")) /\
  (absent (metadata session ≫= lookup "orderId") -> state_after w sessionId st = st).
Proof.
  intros Hs Hp. unfold result, state_after.
  destruct (run_cases w sessionId st) as [(reason & Hs' & _) | (session' & Hs' & Hcase)];
    [congruence|].
  assert (session' = session) as -> by congruence. clear Hs'.
  destruct Hcase as [(Hnp & _) | [(_ & Ha & Hrun) | [(oid & _ & Hm & Hne & _ & Hrun) |
                     (oid & order & Hr)]]].
  - contradiction.
  - rewrite Hrun. cbn. tauto.
  - rewrite Hrun. cbn. split; [split; [discriminate|] |];
      intros [Ha|Ha]; rewrite Hm in Ha; congruence.
  - pose proof Hr as (_ & _ & Hm & Hne & _).
    destruct (resolved_result_kind _ _ _ _ _ _ Hr) as [Hk _]. unfold result in Hk.
    split; [split; [contradiction|] |]; intros [Ha|Ha]; rewrite Hm in Ha; congruence.
Qed.

Lemma missing_order_id_is_rejected_witness :
  let w := Sample.quiet Sample.without_metadata in
  let st := Sample.store Sample.pending in
  retrieve w "cs_1" = inr Sample.without_metadata /\
  payment_status Sample.without_metadata = "paid" /\
  absent (metadata Sample.without_metadata ≫= lookup "orderId") /\
  result w "cs_1" st = Thrown OrderIdNotFound /\
  state_after w "cs_1" st = st.
Proof.
  intros w st.
  assert (Hs : retrieve w "cs_1" = inr Sample.without_metadata) by reflexivity.
  assert (Hp : payment_status Sample.without_metadata = "paid") by reflexivity.
  assert (Ha : absent (metadata Sample.without_metadata ≫= lookup "orderId"))
    by (left; reflexivity).
  destruct (missing_order_id_is_rejected w "cs_1" st Sample.without_metadata Hs Hp)
    as [Hiff Hst].
  exact (conj Hs (conj Hp (conj Ha (conj (proj2 Hiff Ha) (Hst Ha))))).
Defined.

(** X2. A paid session that names an order fails with [OrderNotFound] exactly
    when the store holds no order with that id; nothing has been touched
    then. *)
Theorem unknown_order_is_rejected w sessionId st session orderId :
  retrieve w sessionId = inr session ->
  payment_status session = "paid" ->
  metadata session ≫= lookup "orderId" = Some orderId ->
  orderId <> "" ->
  (result w sessionId st = Thrown OrderNotFound <-> findUnique (db st) orderId = None) /\
  (findUnique (db st) orderId = None -> state_after w sessionId st = st).
Proof.
  intros Hs Hp Hm Hne. unfold result, state_after.
  destruct (run_cases w sessionId st) as [(reason & Hs' & _) | (session' & Hs' & Hcase)];
    [congruence|].
  assert (session' = session) as -> by congruence. clear Hs'.
  destruct Hcase as [(Hnp & _) | [(_ & Ha & Hrun) | [(oid & _ & Hm' & _ & Hf & Hrun) |
                     (oid & order & Hr)]]].
  - contradiction.
  - destruct Ha as [Ha|Ha]; rewrite Hm in Ha; congruence.
  - assert (oid = orderId) as -> by congruence. rewrite Hrun. cbn. tauto.
  - pose proof Hr as (_ & _ & Hm' & _ & Hf).
    assert (oid = orderId) as -> by congruence.
    destruct (resolved_result_kind _ _ _ _ _ _ Hr) as [_ Hk]. unfold result in Hk.
    split; [split; [contradiction|] |]; congruence.
Qed.

Lemma unknown_order_is_rejected_witness :
  let w := Sample.quiet Sample.for_unknown_order in
  let st := Sample.store Sample.pending in
  retrieve w "cs_1" = inr Sample.for_unknown_order /\
  payment_status Sample.for_unknown_order = "paid" /\
  metadata Sample.for_unknown_order ≫= lookup "orderId" = Some "ord_9" /\
  findUnique (db st) "ord_9" = None /\
  result w "cs_1" st = Thrown OrderNotFound /\
  state_after w "cs_1" st = st.
Proof.
  intros w st.
  assert (Hs : retrieve w "cs_1" = inr Sample.for_unknown_order) by reflexivity.
  assert (Hp : payment_status Sample.for_unknown_order = "paid") by reflexivity.
  assert (Hm : metadata Sample.for_unknown_order ≫= lookup "orderId" = Some "ord_9")
    by (vm_compute; reflexivity).
  assert (Hne : "ord_9" <> "") by discriminate.
  assert (Hf : findUnique (db st) "ord_9" = None) by reflexivity.
  destruct (unknown_order_is_rejected w "cs_1" st Sample.for_unknown_order "ord_9"
              Hs Hp Hm Hne) as [Hiff Hst].
  exact (conj Hs (conj Hp (conj Hm (conj Hf (conj (proj2 Hiff Hf) (Hst Hf)))))).
Defined.

(** ** What a run leaves behind *)

(** The calls of lines 75-111, when none of them stops the routine. *)
Lemma after_commit_calls w updated st :
  fst (after_commit w updated st) = Normal tt ->
  calls (snd (after_commit w updated st)) =
    calls st ++ promo_calls updated ++ fan_out_calls w updated.
Proof.
  unfold promo_calls, fan_out_calls, frontendUrl. run_fan_out.
  destruct (JS.truthy (promoCodeId updated)); cbn.
  - destruct (incrementPromoUsage w _); cbn; [|discriminate].
    destruct (sendAnalyticsEvent w _) as [|[]]; cbn; try discriminate;
      intros _; rewrite <- !app_assoc; reflexivity.
  - destruct (sendAnalyticsEvent w _) as [|[]]; cbn; try discriminate;
      intros _; rewrite <- !app_assoc; reflexivity.
Qed.

(** X3. A successful confirmation makes these calls and no other, in this
    order: the promo increment if the order has a promo code, then the
    order confirmation, the prompt guide and the analytics event.  Both
    mails link to the order the session named, and the event carries its
    id. *)
Theorem successful_confirmation_calls w sessionId st session orderId order :
  resolves w sessionId st session orderId order ->
  status order <> PAID ->
  result w sessionId st = Normal tt ->
  let updated := mark_paid (clock w) order in
  calls (state_after w sessionId st) =
    calls st ++ promo_calls order ++ fan_out_calls w updated /\
  oc_orderUrl (confirmation_mail (frontendUrl w) updated)
    = frontendUrl w +:+ "/design?orderId=" +:+ orderId /\
  pg_orderUrl (guide_mail (frontendUrl w) updated)
    = frontendUrl w +:+ "/design?orderId=" +:+ orderId /\
  ev_order_id (paid_event updated) = orderId.
Proof.
  intros Hr Hp Hres updated. apply is_PAID_false in Hp.
  pose proof (normal_return_passed_checks _ _ _ _ _ _ Hr Hp Hres) as Hv.
  destruct (commit_is_written _ _ _ _ _ _ Hr Hp Hv) as [Heq _].
  pose proof Hr as (_ & _ & _ & _ & Hf). apply find_has_id in Hf.
  unfold result in Hres. unfold state_after. rewrite Heq in *.
  rewrite (after_commit_calls _ _ _ Hres).
  cbn. unfold order_url. cbn. rewrite Hf. repeat split.
Qed.

Lemma successful_confirmation_calls_witness :
  let w := Sample.quiet Sample.good in
  let st := Sample.store Sample.promo_order in
  let updated := mark_paid (clock w) Sample.promo_order in
  resolves w "cs_1" st Sample.good "ord_1" Sample.promo_order /\
  status Sample.promo_order <> PAID /\
  result w "cs_1" st = Normal tt /\
  calls (state_after w "cs_1" st) =
    [IncrementPromoUsageCall "SAVE10";
     SendOrderConfirmationCall (confirmation_mail "http://localhost:5173" updated);
     SendPromptGuideCall (guide_mail "http://localhost:5173" updated);
     SendAnalyticsEventCall (paid_event updated)] /\
  oc_orderUrl (confirmation_mail (frontendUrl w) updated)
    = "http://localhost:5173/design?orderId=ord_1".
Proof.
  intros w st updated.
  assert (Hr : resolves w "cs_1" st Sample.good "ord_1" Sample.promo_order).
  { repeat split; try reflexivity. discriminate. }
  assert (Hp : status Sample.promo_order <> PAID) by discriminate.
  assert (Hres : result w "cs_1" st = Normal tt) by (vm_compute; reflexivity).
  destruct (successful_confirmation_calls w "cs_1" st Sample.good "ord_1" Sample.promo_order
              Hr Hp Hres) as (Hc & Hu & _).
  exact (conj Hr (conj Hp (conj Hres (conj Hc Hu)))).
Defined.

(** X4. A failure of the promo increment or of the analytics call reaches
    the caller only after the commit: when the routine fails with one of
    them on a resolved order that was not yet paid, that order is paid and
    its payment recorded. *)
Theorem collaborator_failure_follows_commit w sessionId st session orderId order
    who reason :
  resolves w sessionId st session orderId order ->
  status order <> PAID ->
  result w sessionId st = Thrown (Failure who reason) ->
  who = IncrementPromoUsage \/ who = SendAnalyticsEvent ->
  findUnique (db (state_after w sessionId st)) orderId = Some (mark_paid (clock w) order) /\
  payments (db (state_after w sessionId st))
    = payments (db st) ++ [new_payment orderId session].
Proof.
  intros Hr Hp Hres _. apply is_PAID_false in Hp.
  pose proof Hr as (_ & _ & _ & _ & Hf).
  assert (Hv : verdict session order = None).
  { destruct (verdict session order) as [e'|] eqn:Hv; [|reflexivity].
    unfold result in Hres. rewrite (check_failure_stops _ _ _ _ _ _ _ Hr Hp Hv) in Hres.
    cbn in Hres. injection Hres as ->. apply verdict_own in Hv. discriminate. }
  destruct (commit_is_written _ _ _ _ _ _ Hr Hp Hv) as [_ Hdb].
  rewrite Hdb. split; [apply find_replace_same; exact Hf | reflexivity].
Qed.

Lemma collaborator_failure_follows_commit_witness :
  let w := Sample.analytics_down in
  let st := Sample.store Sample.pending in
  resolves w "cs_1" st Sample.good "ord_1" Sample.pending /\
  status Sample.pending <> PAID /\
  result w "cs_1" st = Thrown (Failure SendAnalyticsEvent "analytics unavailable") /\
  findUnique (db (state_after w "cs_1" st)) "ord_1"
    = Some (mark_paid (clock w) Sample.pending) /\
  payments (db (state_after w "cs_1" st)) = [new_payment "ord_1" Sample.good].
Proof.
  intros w st.
  assert (Hr : resolves w "cs_1" st Sample.good "ord_1" Sample.pending).
  { repeat split; try reflexivity. discriminate. }
  assert (Hp : status Sample.pending <> PAID) by discriminate.
  assert (Hres : result w "cs_1" st
                 = Thrown (Failure SendAnalyticsEvent "analytics unavailable"))
    by (vm_compute; reflexivity).
  exact (conj Hr (conj Hp (conj Hres
    (collaborator_failure_follows_commit w "cs_1" st Sample.good "ord_1" Sample.pending
       SendAnalyticsEvent "analytics unavailable" Hr Hp Hres (or_intror eq_refl))))).
Defined.

Lemma repeated_confirmation_adds_nothing_witness :
  let w := Sample.promo_down in
  let st := Sample.store Sample.promo_order in
  let st1 := state_after w "cs_1" st in
  let st2 := state_after w "cs_1" st1 in
  resolves w "cs_1" st Sample.good "ord_1" Sample.promo_order /\
  status Sample.promo_order <> PAID /\
  verdict Sample.good Sample.promo_order = None /\
  result w "cs_1" st1 = Normal tt /\
  db st2 = db st1 /\
  payments (db st2) = [new_payment "ord_1" Sample.good] /\
  calls st2 = calls st1 /\
  in_flight st2 = in_flight st1.
Proof.
  intros w st st1 st2.
  assert (Hr : resolves w "cs_1" st Sample.good "ord_1" Sample.promo_order).
  { repeat split; try reflexivity. discriminate. }
  assert (Hp : status Sample.promo_order <> PAID) by discriminate.
  assert (Hv : verdict Sample.good Sample.promo_order = None) by (vm_compute; reflexivity).
  exact (conj Hr (conj Hp (conj Hv
    (repeated_confirmation_adds_nothing w "cs_1" st Sample.good "ord_1" Sample.promo_order
       Hr Hp Hv)))).
Defined.

(** ** Invariants of the store *)

(** A run leaves the store as it was, or makes the one commit. *)
Lemma db_after_cases w sessionId st :
  db (state_after w sessionId st) = db st \/
  exists session orderId order,
    resolves w sessionId st session orderId order /\
    status order <> PAID /\
    verdict session order = None /\
    db (state_after w sessionId st) = db (committed w session orderId st).
Proof.
  unfold state_after.
  destruct (run_cases w sessionId st) as [(reason & _ & Hrun) | (session & _ & Hcase)].
  { left. rewrite Hrun. reflexivity. }
  destruct Hcase as [(_ & Hrun) | [(_ & _ & Hrun) | [(oid & _ & _ & _ & _ & Hrun) |
                     (oid & order & Hr)]]]; try (left; rewrite Hrun; reflexivity).
  pose proof Hr as (_ & _ & _ & _ & Hf).
  destruct (is_PAID (status order)) eqn:Hp.
  - left. rewrite (handle_resolved _ _ _ _ _ _ Hr), Hp. reflexivity.
  - destruct (verdict session order) as [e|] eqn:Hv.
    + left. rewrite (check_failure_stops _ _ _ _ _ _ _ Hr Hp Hv). reflexivity.
    + right. exists session, oid, order. apply is_PAID_false in Hp as Hp'.
      repeat split; try assumption; try apply Hr.
      apply (commit_is_written _ _ _ _ _ _ Hr Hp Hv).
Qed.

Lemma replace_row_ids (oid : string) (now : Z) (rows : list Order) :
  List.map order_id (replace_row oid (mark_paid now) rows) = List.map order_id rows.
Proof.
  induction rows as [|r rows IH]; cbn; [reflexivity|].
  destruct (has_id oid r); cbn; [reflexivity | rewrite IH; reflexivity].
Qed.

Lemma committed_lookup w session orderId st order other :
  findUnique (db st) orderId = Some order ->
  findUnique (db (committed w session orderId st)) other =
    if String.eqb other orderId then Some (mark_paid (clock w) order)
    else findUnique (db st) other.
Proof.
  intros Hf. unfold findUnique. cbn.
  destruct (String.eqb_spec other orderId) as [->|Hne].
  - apply find_replace_same. exact Hf.
  - apply find_replace_other; [intros; reflexivity | exact Hne].
Qed.

(** X6. Whatever a run does, it keeps every payment on a paid order: a payment
    is only written together with the [PAID] status of its order, and a
    paid order is never taken back. *)
Theorem payments_stay_backed w sessionId st :
  payment_backed (db st) ->
  payment_backed (db (state_after w sessionId st)).
Proof.
  intros Hinv.
  destruct (db_after_cases w sessionId st)
    as [-> | (session & orderId & order & Hr & _ & _ & ->)]; [exact Hinv|].
  pose proof Hr as (_ & _ & _ & _ & Hf).
  intros p Hin. cbn in Hin. apply in_app_or in Hin.
  rewrite (committed_lookup _ _ _ _ _ _ Hf).
  destruct Hin as [Hin | [<- | []]].
  - destruct (Hinv p Hin) as (o & Ho & Hpaid).
    destruct (String.eqb (pay_order p) orderId); eauto.
  - cbn. rewrite String.eqb_refl. eauto.
Qed.

Lemma payments_stay_backed_witness :
  let w := Sample.quiet Sample.good in
  payment_backed (db Sample.ledger) /\
  payment_backed (db (state_after w "cs_1" Sample.ledger)) /\
  length (payments (db (state_after w "cs_1" Sample.ledger))) = 2.
Proof.
  intros w.
  assert (H : payment_backed (db Sample.ledger)).
  { intros p [<- | []]. exists Sample.settled. split; reflexivity. }
  exact (conj H (conj (payments_stay_backed w "cs_1" Sample.ledger H) eq_refl)).
Defined.

(** X7. No order ever gets a second payment: on a store where payments sit on
    paid orders, one payment per order stays one payment per order. *)
Theorem one_payment_per_order_is_kept w sessionId st :
  payment_backed (db st) ->
  one_payment_per_order (db st) ->
  one_payment_per_order (db (state_after w sessionId st)).
Proof.
  intros Hinv Hone.
  destruct (db_after_cases w sessionId st)
    as [-> | (session & orderId & order & Hr & Hp & _ & ->)]; [exact Hone|].
  pose proof Hr as (_ & _ & _ & _ & Hf).
  unfold one_payment_per_order in *. cbn. rewrite List.map_app. cbn.
  apply NoDup_app. split; [exact Hone|]. split.
  - intros oid Hin Hnew. apply list_elem_of_singleton in Hnew. subst oid.
    apply list_elem_of_In, List.in_map_iff in Hin.
    destruct Hin as (p & Hpo & Hin). destruct (Hinv p Hin) as (o & Ho & Hpaid).
    rewrite Hpo in Ho. congruence.
  - apply NoDup_singleton.
Qed.

Lemma one_payment_per_order_is_kept_witness :
  let w := Sample.quiet Sample.good in
  payment_backed (db Sample.ledger) /\
  one_payment_per_order (db Sample.ledger) /\
  one_payment_per_order (db (state_after w "cs_1" Sample.ledger)) /\
  List.map pay_order (payments (db (state_after w "cs_1" Sample.ledger))) = ["ord_0"; "ord_1"].
Proof.
  intros w.
  assert (H : payment_backed (db Sample.ledger)).
  { intros p [<- | []]. exists Sample.settled. split; reflexivity. }
  assert (H1 : one_payment_per_order (db Sample.ledger)).
  { unfold one_payment_per_order. cbn. apply NoDup_singleton. }
  exact (conj H (conj H1 (conj (one_payment_per_order_is_kept w "cs_1" Sample.ledger H H1)
                               eq_refl))).
Defined.

(** X8. A run never creates, deletes or renames an order, never changes a paid
    order, changes an order only by marking it paid, and never removes or
    rewrites a payment: it appends at most one. *)
Theorem store_is_only_extended w sessionId st :
  let st' := state_after w sessionId st in
  List.map order_id (orders (db st')) = List.map order_id (orders (db st)) /\
  (forall oid o, findUnique (db st) oid = Some o -> status o = PAID ->
                 findUnique (db st') oid = Some o) /\
  (forall oid o, findUnique (db st) oid = Some o ->
                 findUnique (db st') oid = Some o \/
                 findUnique (db st') oid = Some (mark_paid (clock w) o)) /\
  (exists added, payments (db st') = payments (db st) ++ added /\ length added <= 1).
Proof.
  intros st'. subst st'.
  destruct (db_after_cases w sessionId st)
    as [-> | (session & orderId & order & Hr & Hp & _ & ->)].
  { repeat split; auto. exists []. rewrite app_nil_r. auto. }
  pose proof Hr as (_ & _ & _ & _ & Hf).
  split; [cbn; apply replace_row_ids|]. split; [|split].
  - intros oid o Ho Hpaid. rewrite (committed_lookup _ _ _ _ _ _ Hf).
    destruct (String.eqb_spec oid orderId) as [->|]; [congruence | exact Ho].
  - intros oid o Ho. rewrite (committed_lookup _ _ _ _ _ _ Hf).
    destruct (String.eqb_spec oid orderId) as [->|]; [right; congruence | left; exact Ho].
  - exists [new_payment orderId session]. cbn. auto.
Qed.

(** ** Amounts: edge cases *)

Local Open Scope float_scope.




Lemma binary_round_abs (p : positive) (e : Z) :
  SFabs (binary_round prec emax true p e) = SFabs (binary_round prec emax false p e).
Proof.
  unfold binary_round, binary_round_aux.
  destruct (shl_align _ _ _) as [mz ez].
  destruct (shr_fexp _ _ _ _ _) as [mrs e'].
  destruct (shr_fexp _ _ _ _ _) as [mrs' e''].
  destruct (shr_m mrs'); try reflexivity.
  destruct (e'' <=? emax - prec)%Z; reflexivity.
Qed.

Lemma binary_normalize_abs (m e : Z) :
  SFabs (binary_normalize prec emax (- m) e false) = SFabs (binary_normalize prec emax m e false).
Proof.
  destruct m; cbn [Z.opp binary_normalize]; [reflexivity | apply binary_round_abs |].
  symmetry. apply binary_round_abs.
Qed.

Lemma SFsub_abs_swap (x y : spec_float) :
  SFabs (SF64sub x y) = SFabs (SF64sub y x).
Proof.
  unfold SF64sub, SFsub.
  destruct x as [sx|sx| |sx mx ex], y as [sy|sy| |sy my ey]; try reflexivity;
    try (destruct sx, sy; reflexivity).
  rewrite (Z.min_comm ey ex).
  rewrite <- binary_normalize_abs. f_equal. f_equal. lia.
Qed.

(** X10. The amount check does not depend on which of the two totals is
    which: a session total [a] against an order total [b] is rejected
    exactly when a session total [b] against an order total [a] is. *)
Theorem tolerance_is_symmetric (a b : float) :
  exceeds_tolerance a b = exceeds_tolerance b a.
Proof.
  unfold exceeds_tolerance. rewrite !ltb_spec, !abs_spec, !sub_spec.
  rewrite SFsub_abs_swap. reflexivity.
Qed.



Local Close Scope float_scope.

(** ** The patch script: strings *)

Section Strings.

Implicit Types m s a b r u v w : string.

Lemma str_app_cons (c : ascii) a b : String c a +:+ b = String c (a +:+ b).
Proof. reflexivity. Qed.

Lemma str_app_nil_l b : "" +:+ b = b.
Proof. reflexivity. Qed.

Ltac step_app :=
  rewrite ?str_app_cons, ?str_app_nil_l; cbn [String.length String.substring String.index].

Lemma str_app_assoc a b r : (a +:+ b) +:+ r = a +:+ (b +:+ r).
Proof. induction a as [|c a IH]; step_app; [reflexivity | congruence]. Qed.

Lemma str_length_app a b : String.length (a +:+ b) = String.length a + String.length b.
Proof. induction a as [|c a IH]; step_app; [reflexivity | cbn; congruence]. Qed.

Lemma substring_all s : String.substring 0 (String.length s) s = s.
Proof. induction s as [|c s IH]; simpl; [reflexivity | congruence]. Qed.

Lemma slice_to_app a b : Patch.slice_to (String.length a) (a +:+ b) = a.
Proof.
  unfold Patch.slice_to. induction a as [|c a IH]; step_app.
  - destruct b; reflexivity.
  - rewrite IH. reflexivity.
Qed.

Lemma substring_skip a b n k :
  String.substring (String.length a + n) k (a +:+ b) = String.substring n k b.
Proof. induction a as [|c a IH]; step_app; [reflexivity | exact IH]. Qed.

Lemma slice_from_app a b : Patch.slice_from (String.length a) (a +:+ b) = b.
Proof.
  unfold Patch.slice_from. rewrite str_length_app.
  replace (String.length a + String.length b - String.length a) with (String.length b) by lia.
  rewrite <- (Nat.add_0_r (String.length a)) at 1.
  rewrite substring_skip. apply substring_all.
Qed.

Lemma prefix_app m r : String.prefix m (m +:+ r) = true.
Proof.
  induction m as [|c m IH]; step_app; cbn; [destruct r; reflexivity|].
  destruct (ascii_dec c c); [exact IH | contradiction].
Qed.

Lemma prefix_split m s : String.prefix m s = true -> exists r, s = m +:+ r.
Proof.
  revert s. induction m as [|c m IH]; intros s; cbn.
  - intros _. exists s. reflexivity.
  - destruct s as [|d s]; cbn; [discriminate|].
    destruct (ascii_dec c d) as [->|]; [|discriminate].
    intros H. destruct (IH _ H) as [r ->]. exists r. reflexivity.
Qed.

(** Only the first [length m] characters count. *)
Lemma prefix_short m u r :
  String.length m <= String.length u -> String.prefix m (u +:+ r) = String.prefix m u.
Proof.
  revert u. induction m as [|c m IH]; intros u; cbn.
  - destruct (u +:+ r), u; reflexivity.
  - destruct u as [|d u]; step_app; cbn; [lia|]. intros H.
    destruct (ascii_dec c d); [apply IH; lia | reflexivity].
Qed.

Lemma index_at_prefix m s : String.prefix m s = true -> String.index 0 m s = Some 0.
Proof.
  destruct s as [|c s]; cbn.
  - destruct m; [reflexivity | discriminate].
  - intros ->. reflexivity.
Qed.

(** The first occurrence splits the text. *)
Lemma index_split m s k :
  String.index 0 m s = Some k ->
  exists a b, s = a +:+ b /\ String.length a = k /\ String.prefix m b = true.
Proof.
  revert k. induction s as [|c s IH]; intros k.
  - cbn. destruct m; [|discriminate]. intros [= E]. subst k. exists "", "". auto.
  - cbn [String.index]. destruct (String.prefix m (String c s)) eqn:Hp.
    + intros [= E]. subst k. exists "", (String c s). auto.
    + destruct (String.index 0 m s) as [k'|]; [|discriminate].
      intros [= E]. subst k. destruct (IH k' eq_refl) as (a & b & Hs & Hl & Hb).
      exists (String c a), b. subst s. cbn. auto.
Qed.

Lemma index_skip m a s n :
  String.index (String.length a + n) m (a +:+ s) =
  (fun k => String.length a + k) <$> String.index n m s.
Proof.
  induction a as [|c a IH]; step_app; cbn [Nat.add String.index].
  - destruct (String.index n m s); reflexivity.
  - rewrite IH. destruct (String.index n m s); reflexivity.
Qed.

Lemma index_occurs m a b :
  String.prefix m b = true -> String.index 0 m (a +:+ b) <> None.
Proof.
  intros Hb. induction a as [|c a IH]; step_app.
  - rewrite (index_at_prefix _ _ Hb). discriminate.
  - destruct (String.prefix m (String c (a +:+ b))); [discriminate|].
    destruct (String.index 0 m (a +:+ b)); [discriminate | contradiction].
Qed.

Lemma index_none_iff m s : String.index 0 m s = None <-> ~ Patch.occurs m s.
Proof.
  split.
  - intros Hn (u & v & ->). apply (index_occurs m u (m +:+ v)); [apply prefix_app | exact Hn].
  - intros Ho. destruct (String.index 0 m s) as [k|] eqn:E; [|reflexivity].
    exfalso. apply Ho. destruct (index_split _ _ _ E) as (a & b & -> & _ & Hb).
    destruct (prefix_split _ _ Hb) as [r ->]. exists a, r. reflexivity.
Qed.

(** The first occurrence stays where it is when the text changes only
    behind an occurrence that begins there. *)
Lemma index_transfer m a x y :
  String.prefix m x = true ->
  String.prefix m y = true ->
  String.index 0 m (a +:+ x) = Some (String.length a) ->
  String.index 0 m (a +:+ y) = Some (String.length a).
Proof.
  intros Hx Hy. induction a as [|c a IH]; step_app.
  - intros _. apply index_at_prefix. exact Hy.
  - destruct (prefix_split _ _ Hx) as [x' ->]. destruct (prefix_split _ _ Hy) as [y' ->].
    assert (Hsame : String.prefix m (String c (a +:+ m +:+ y'))
                    = String.prefix m (String c (a +:+ m +:+ x'))).
    { change (String c (a +:+ m +:+ y')) with (String c a +:+ m +:+ y').
      change (String c (a +:+ m +:+ x')) with (String c a +:+ m +:+ x').
      rewrite <- !str_app_assoc.
      rewrite (prefix_short m (String c a +:+ m) y') by (rewrite str_length_app; lia).
      rewrite (prefix_short m (String c a +:+ m) x') by (rewrite str_length_app; lia).
      reflexivity. }
    rewrite Hsame.
    destruct (String.prefix m (String c (a +:+ m +:+ x'))); [discriminate|].
    destruct (String.index 0 m (a +:+ m +:+ x')) as [k|] eqn:E; [|discriminate].
    intros [= ->]. rewrite (IH eq_refl). reflexivity.
Qed.

Lemma mismatch_prefix m w s : Patch.mismatch m w = true -> String.prefix m (w +:+ s) = false.
Proof.
  revert w. induction m as [|c m IH]; intros w; cbn; [discriminate|].
  destruct w as [|d w]; step_app; cbn; [discriminate|].
  destruct (Ascii.eqb_spec c d) as [->|Hne].
  - destruct (ascii_dec d d); [apply IH | contradiction].
  - destruct (ascii_dec c d); [contradiction | reflexivity].
Qed.

Lemma index_after_clear m w s :
  Patch.clear_of m w = true ->
  String.prefix m s = true ->
  String.index 0 m (w +:+ s) = Some (String.length w).
Proof.
  intros Hc Hs. induction w as [|c w IH]; step_app.
  - apply index_at_prefix. exact Hs.
  - cbn in Hc. apply andb_true_iff in Hc. destruct Hc as [Hm Hc].
    change (String c (w +:+ s)) with (String c w +:+ s).
    rewrite (mismatch_prefix _ _ s Hm). cbn. rewrite (IH Hc). reflexivity.
Qed.

Lemma str_app_split_unique a x b y :
  a +:+ x = b +:+ y -> String.length a = String.length b -> a = b /\ x = y.
Proof.
  revert b. induction a as [|c a IH]; intros [|d b]; step_app; try discriminate.
  - auto.
  - intros [= -> Heq] [= Hlen]. destruct (IH b Heq Hlen) as [-> ->]. auto.
Qed.

End Strings.

(** ** The patch script: what it writes *)

(** Facts about the two literals of the script. *)
Lemma new_fn_opens_with_marker : String.prefix Patch.start_marker Patch.new_fn = true.
Proof. vm_compute. reflexivity. Qed.

Lemma new_fn_clear_of_end_marker :
  Patch.clear_of Patch.end_marker (Patch.new_fn +:+ Patch.separator) = true.
Proof. vm_compute. reflexivity. Qed.

(** A successful patch, taken apart. *)
Lemma patched_inv (text text' : string) :
  Patch.patched text = Some text' ->
  exists before old after,
    text = before +:+ old +:+ after /\
    text' = before +:+ Patch.new_fn +:+ Patch.separator +:+ after /\
    Patch.find Patch.start_marker 0 text = Some (String.length before) /\
    Patch.find Patch.end_marker (String.length before) text
      = Some (String.length before + String.length old) /\
    String.prefix Patch.start_marker (old +:+ after) = true /\
    String.prefix Patch.end_marker after = true.
Proof.
  unfold Patch.patched, Patch.find.
  destruct (String.index 0 Patch.start_marker text) as [start|] eqn:E1; [|discriminate].
  destruct (index_split _ _ _ E1) as (before & rest & -> & <- & Hrest).
  pose proof (index_skip Patch.end_marker before rest 0) as Hskip.
  rewrite Nat.add_0_r in Hskip. rewrite Hskip.
  destruct (String.index 0 Patch.end_marker rest) as [k|] eqn:E2; [|discriminate].
  destruct (index_split _ _ _ E2) as (old & after & -> & <- & Hafter).
  cbn [fmap option_fmap option_map].
  assert (Hto : Patch.slice_to (String.length before) (before +:+ old +:+ after) = before)
    by apply slice_to_app.
  assert (Hfrom : Patch.slice_from (String.length before + String.length old)
                    (before +:+ old +:+ after) = after).
  { rewrite <- str_length_app, <- str_app_assoc. apply slice_from_app. }
  rewrite Hto, Hfrom. intros [= <-]. exists before, old, after.
  repeat split; try reflexivity; assumption.
Qed.

(** Patching a patched text gives it back. *)
Lemma patched_again (text text' : string) :
  Patch.patched text = Some text' -> Patch.patched text' = Some text'.
Proof.
  intros H. destruct (patched_inv _ _ H) as (before & old & after & -> & -> & Hs & _ & Ho & Ha).
  unfold Patch.find in Hs.
  assert (Hy : String.prefix Patch.start_marker
                 (Patch.new_fn +:+ Patch.separator +:+ after) = true).
  { destruct (prefix_split _ _ new_fn_opens_with_marker) as [r Hr].
    rewrite Hr, str_app_assoc. apply prefix_app. }
  pose proof (index_transfer _ _ _ _ Ho Hy Hs) as Hs'.
  unfold Patch.patched, Patch.find. rewrite Hs'.
  pose proof (index_skip Patch.end_marker before
                (Patch.new_fn +:+ Patch.separator +:+ after) 0) as Hskip.
  rewrite Nat.add_0_r in Hskip. rewrite Hskip.
  rewrite <- (str_app_assoc Patch.new_fn Patch.separator after).
  rewrite (index_after_clear _ _ _ new_fn_clear_of_end_marker Ha).
  cbn [fmap option_fmap option_map].
  rewrite slice_to_app.
  assert (Hfrom : Patch.slice_from
                    (String.length before + String.length (Patch.new_fn +:+ Patch.separator))
                    (before +:+ (Patch.new_fn +:+ Patch.separator) +:+ after) = after).
  { rewrite <- str_length_app.
    rewrite <- (str_app_assoc before (Patch.new_fn +:+ Patch.separator) after).
    apply slice_from_app. }
  rewrite Hfrom, !str_app_assoc. reflexivity.
Qed.

(** X12. What the script hands to [write_text], in terms of the text it
    read.  When it does not exit, the text read splits as
    [before ++ old ++ after], where [before] ends at the first start marker
    and [after] begins at the first end marker found from there, and the
    text written is [before ++ new_fn ++ two newlines ++ after]: the text
    before the routine and the text from the doc comment on are kept.  In
    the text written the routine begins where it began, and the doc comment
    follows the new routine after the two newlines. *)
Theorem patch_keeps_text_outside_routine (text text' : string) :
  Patch.patched text = Some text' ->
  exists before old after,
    text = before +:+ old +:+ after /\
    text' = before +:+ Patch.new_fn +:+ Patch.separator +:+ after /\
    Patch.find Patch.start_marker 0 text = Some (String.length before) /\
    Patch.find Patch.end_marker (String.length before) text
      = Some (String.length before + String.length old) /\
    String.prefix Patch.start_marker (old +:+ after) = true /\
    String.prefix Patch.end_marker after = true /\
    Patch.find Patch.start_marker 0 text' = Some (String.length before) /\
    Patch.find Patch.end_marker (String.length before) text'
      = Some (String.length before + String.length Patch.new_fn + 2).
Proof.
  intros H.
  destruct (patched_inv _ _ H) as (before & old & after & -> & -> & Hs & He & Ho & Ha).
  exists before, old, after. do 6 (split; [first [reflexivity | assumption]|]).
  assert (Hy : String.prefix Patch.start_marker
                 (Patch.new_fn +:+ Patch.separator +:+ after) = true).
  { destruct (prefix_split _ _ new_fn_opens_with_marker) as [r Hr].
    rewrite Hr, str_app_assoc. apply prefix_app. }
  split.
  - unfold Patch.find in *. exact (index_transfer _ _ _ _ Ho Hy Hs).
  - unfold Patch.find.
    pose proof (index_skip Patch.end_marker before
                  (Patch.new_fn +:+ Patch.separator +:+ after) 0) as Hskip.
    rewrite Nat.add_0_r in Hskip. rewrite Hskip.
    rewrite <- (str_app_assoc Patch.new_fn Patch.separator after).
    rewrite (index_after_clear _ _ _ new_fn_clear_of_end_marker Ha).
    cbn [fmap option_fmap option_map]. rewrite str_length_app.
    f_equal. change (String.length Patch.separator) with 2. lia.
Qed.

Lemma patch_keeps_text_outside_routine_witness :
  exists text',
    Patch.patched Patch.sample_file = Some text' /\
    exists before old after,
      Patch.sample_file = before +:+ old +:+ after /\
      text' = before +:+ Patch.new_fn +:+ Patch.separator +:+ after /\
      String.length before = 30 /\
      String.prefix Patch.end_marker after = true /\
      Patch.find Patch.start_marker 0 text' = Some 30.
Proof.
  destruct (Patch.patched Patch.sample_file) as [text'|] eqn:Hp.
  - exists text'. split; [reflexivity|].
    destruct (patch_keeps_text_outside_routine Patch.sample_file text' Hp)
      as (before & old & after & H1 & H2 & H3 & _ & _ & H6 & H7 & _).
    assert (H0 : Patch.find Patch.start_marker 0 Patch.sample_file = Some 30)
      by (vm_compute; reflexivity).
    assert (Hlen : String.length before = 30) by congruence.
    exists before, old, after. rewrite Hlen in H7. auto.
  - exfalso. assert (H : Patch.patched Patch.sample_file <> None)
      by (vm_compute; discriminate).
    exact (H Hp).
Defined.

(** X13. The script exits at line 7 exactly when, in the text it read, the
    start marker does not occur, or no end marker occurs from the first
    start marker on. *)
Theorem patch_exits_iff_markers_missing (text : string) :
  Patch.patched text = None <->
  (~ Patch.occurs Patch.start_marker text \/
   exists before rest,
     text = before +:+ rest /\
     Patch.find Patch.start_marker 0 text = Some (String.length before) /\
     ~ Patch.occurs Patch.end_marker rest).
Proof.
  unfold Patch.patched, Patch.find.
  destruct (String.index 0 Patch.start_marker text) as [start|] eqn:E1.
  - destruct (index_split _ _ _ E1) as (before & rest & -> & <- & Hrest).
    pose proof (index_skip Patch.end_marker before rest 0) as Hskip.
    rewrite Nat.add_0_r in Hskip. rewrite Hskip.
    destruct (String.index 0 Patch.end_marker rest) as [k|] eqn:E2; cbn.
    + split; [discriminate|]. intros [Hno | (b & r & Heq & Hlen & Hno)].
      * apply index_none_iff in Hno. congruence.
      * injection Hlen as Hlen.
        destruct (str_app_split_unique _ _ _ _ Heq Hlen) as [-> ->].
        apply index_none_iff in Hno. congruence.
    + split; [|reflexivity]. intros _. right. exists before, rest.
      split; [reflexivity|]. split; [reflexivity|]. apply index_none_iff. exact E2.
  - split; [|reflexivity]. intros _. left. apply index_none_iff. exact E1.
Qed.

(** X14. Running the script again on its own output changes nothing. *)
Theorem patch_run_is_idempotent (fs fs' : gmap string string) :
  Patch.run fs = (None, fs') -> Patch.run fs' = (None, fs').
Proof.
  unfold Patch.run.
  destruct (fs !! Patch.path) as [text|] eqn:Hf; [|discriminate].
  destruct (Patch.patched text) as [text'|] eqn:Hp; [|discriminate].
  intros [= <-]. rewrite lookup_insert_eq, (patched_again _ _ Hp).
  rewrite insert_insert_eq. reflexivity.
Qed.

Lemma patch_run_is_idempotent_witness :
  let fs : gmap string string := {[ Patch.path := Patch.sample_file ]} in
  exists fs', Patch.run fs = (None, fs') /\ Patch.run fs' = (None, fs').
Proof.
  intros fs.
  destruct (Patch.run fs) as [r fs'] eqn:Hrun.
  assert (Hr : r = None).
  { apply (f_equal fst) in Hrun. cbn in Hrun. rewrite <- Hrun. vm_compute. reflexivity. }
  subst r. exists fs'. exact (conj eq_refl (patch_run_is_idempotent fs fs' Hrun)).
Defined.

(** ** Currency: what is accepted and what is stored *)


